(** * IDE64 ShortBus DigiMAX expansion (vice/src/c64/cart/shortbus_digimax.c)

    A shallow embedding of the activation / relocation logic of the
    ShortBus DigiMAX device and of its register dispatch into the shared
    sound mixer, followed by the properties established about it.

    C [int] values are integers in [Z]; a C condition [if (x)] is
    [c_true x]; the casts [(WORD)e] of the source are written out as
    [to_WORD e].  The static variables of the translation unit are the
    fields of one record that every function threads explicitly. *)

From stdpp Require Import base numbers list gmap.

Open Scope Z_scope.

(** ** C conversions *)

(** [(WORD)x]: reduction to an unsigned 16 bit value. *)
Definition to_WORD (x : Z) : Z := x mod 65536.

(** The truth value of a C scalar in a condition. *)
Definition c_true (x : Z) : bool := negb (x =? 0).

(** ** The I/O bus (cartio.h) *)

(** The fields of [io_source_t] the device descriptor sets and the module
    later mutates: the address window and the mask. *)
Record io_source_t : Type := Build_io_source {
  start_address : Z;
  end_address : Z;
  address_mask : Z;
  io_source_valid : Z
}.

(** A non-NULL [io_source_list_t *]. *)
Definition handle : Type := nat.

(** What the bus sees of this device: a window being claimed under a handle,
    and a handle being released. *)
Inductive bus_event : Type :=
  | Claim (h : handle) (lo hi : Z)
  | Release (h : handle).

(** Modelled from the spec: the bus registration service of cartio.c, which
    is not part of this file ([claim(window) -> Handle], [release(Handle)]).
    The bus keeps the list of live registrations of this device, hands out
    a handle never used before on every claim, and [bus_log] records the
    calls in the order they were made (oldest first). *)
Record io_bus : Type := Build_io_bus {
  bus_next : handle;
  bus_items : list handle;
  bus_log : list bus_event
}.

(** Modelled from the spec: [claim(window) -> Handle] of the bus registration
    service; the window is the one the descriptor has at the call. *)
Definition io_source_register (dev : io_source_t) (b : io_bus) : handle * io_bus :=
  let h := bus_next b in
  (h, {| bus_next := S h;
         bus_items := bus_items b ++ [h];
         bus_log := bus_log b ++ [Claim h (start_address dev) (end_address dev)] |}).

(** Modelled from the spec: [release(Handle)] of the bus registration
    service. *)
Definition io_source_unregister (h : handle) (b : io_bus) : io_bus :=
  {| bus_next := bus_next b;
     bus_items := filter (λ h', h' ≠ h) (bus_items b);
     bus_log := bus_log b ++ [Release h] |}.

Definition empty_bus : io_bus :=
  {| bus_next := O; bus_items := []; bus_log := [] |}.

(** Replaying a log: the windows claimed once all its events happened. *)
Definition apply_event (live : list (handle * (Z * Z))) (e : bus_event)
  : list (handle * (Z * Z)) :=
  match e with
  | Claim h lo hi => live ++ [(h, (lo, hi))]
  | Release h => filter (λ w, w.1 ≠ h) live
  end.

Definition claimed_after (evs : list bus_event) : list (handle * (Z * Z)) :=
  fold_left apply_event evs [].

(** The registrations a non-NULL or NULL handle stands for. *)
Definition held (l : option handle) : list handle :=
  match l with Some h => [h] | None => [] end.

Definition held_window (l : option handle) (d : io_source_t) : list (handle * (Z * Z)) :=
  match l with
  | Some h => [(h, (start_address d, end_address d))]
  | None => []
  end.

(** A log is orderly when each claim in it is made while nothing is claimed,
    and each release names the one window that is claimed at that point. *)
Definition orderly (log : list bus_event) : Prop :=
  ∀ (n : nat) (e : bus_event), log !! n = Some e →
    match e with
    | Claim _ _ _ => claimed_after (take n log) = []
    | Release h => ∃ w, claimed_after (take n log) = [(h, w)]
    end.

(** ** The sound mixer (sound.h) *)

(** Modelled from the spec: the mixer service of sound.c, which is not part
    of this file: [allocateChannelBlock(chipDescriptor) -> offset],
    [store(globalAddr, value, context)], [read(globalAddr, context) -> value]. *)
Class Mixer (M : Type) : Type := Build_Mixer {
  sound_chip_register : M → Z * M;
  sound_store : Z → Z → Z → M → M;
  sound_read : Z → Z → M → Z
}.

(** Modelled from the spec: a mixer stub that echoes stored values, that is,
    a read of a global address under a context gives the last value stored
    there. *)
Class EchoMixer (M : Type) `{Mixer M} : Prop := Build_EchoMixer {
  sound_read_store : ∀ (m : M) (a v c : Z), sound_read a c (sound_store a v c m) = v
}.

(** A mixer that keeps its cells apart: a store at one global address leaves
    what is read at any other address as it was. *)
Class SeparateMixer (M : Type) `{Mixer M} : Prop := Build_SeparateMixer {
  sound_read_store_other :
    ∀ (m : M) (a a' v c : Z), a ≠ a' →
      sound_read a' c (sound_store a v c m) = sound_read a' c m
}.

(** A concrete echoing mixer: a finite map from (address, chip number) to the
    stored value, blocks of 0x20 addresses handed out one after the other. *)
Record map_mixer : Type := Build_map_mixer {
  mm_next_offset : Z;
  mm_cells : gmap (Z * Z) Z
}.

#[export] Instance map_mixer_Mixer : Mixer map_mixer := {|
  sound_chip_register m :=
    (mm_next_offset m,
     {| mm_next_offset := mm_next_offset m + 0x20; mm_cells := mm_cells m |});
  sound_store a v c m :=
    {| mm_next_offset := mm_next_offset m; mm_cells := <[(a, c) := v]> (mm_cells m) |};
  sound_read a c m := default 0 (mm_cells m !! (a, c))
|}.

Definition empty_map_mixer : map_mixer :=
  {| mm_next_offset := 0; mm_cells := ∅ |}.

(** ** State of the translation unit *)

Section Digimax.

Context {M : Type} `{Mixer M}.

(** The static variables of shortbus_digimax.c, those it uses from the
    included digimaxcore.c ([digimax_sound_chip.chip_enabled],
    [digimax_sound_chip_offset], [digimax_sound_data]), and the two
    collaborators it calls. *)
Record state : Type := Build_state {
  shortbus_digimax_host_active : Z;
  shortbus_digimax_expansion_active : Z;
  shortbus_digimax_address : Z;
  digimax_device : io_source_t;
  shortbus_digimax_list_item : option handle;
  chip_enabled : Z;
  digimax_sound_chip_offset : Z;
  digimax_sound_data : list Z;
  bus : io_bus;
  mixer : M
}.

Definition set_host_active (v : Z) (s : state) : state :=
  {| shortbus_digimax_host_active := v;
     shortbus_digimax_expansion_active := shortbus_digimax_expansion_active s;
     shortbus_digimax_address := shortbus_digimax_address s;
     digimax_device := digimax_device s;
     shortbus_digimax_list_item := shortbus_digimax_list_item s;
     chip_enabled := chip_enabled s;
     digimax_sound_chip_offset := digimax_sound_chip_offset s;
     digimax_sound_data := digimax_sound_data s;
     bus := bus s;
     mixer := mixer s |}.

Definition set_expansion_active (v : Z) (s : state) : state :=
  {| shortbus_digimax_host_active := shortbus_digimax_host_active s;
     shortbus_digimax_expansion_active := v;
     shortbus_digimax_address := shortbus_digimax_address s;
     digimax_device := digimax_device s;
     shortbus_digimax_list_item := shortbus_digimax_list_item s;
     chip_enabled := chip_enabled s;
     digimax_sound_chip_offset := digimax_sound_chip_offset s;
     digimax_sound_data := digimax_sound_data s;
     bus := bus s;
     mixer := mixer s |}.

Definition set_address (v : Z) (s : state) : state :=
  {| shortbus_digimax_host_active := shortbus_digimax_host_active s;
     shortbus_digimax_expansion_active := shortbus_digimax_expansion_active s;
     shortbus_digimax_address := v;
     digimax_device := digimax_device s;
     shortbus_digimax_list_item := shortbus_digimax_list_item s;
     chip_enabled := chip_enabled s;
     digimax_sound_chip_offset := digimax_sound_chip_offset s;
     digimax_sound_data := digimax_sound_data s;
     bus := bus s;
     mixer := mixer s |}.

Definition set_device (d : io_source_t) (s : state) : state :=
  {| shortbus_digimax_host_active := shortbus_digimax_host_active s;
     shortbus_digimax_expansion_active := shortbus_digimax_expansion_active s;
     shortbus_digimax_address := shortbus_digimax_address s;
     digimax_device := d;
     shortbus_digimax_list_item := shortbus_digimax_list_item s;
     chip_enabled := chip_enabled s;
     digimax_sound_chip_offset := digimax_sound_chip_offset s;
     digimax_sound_data := digimax_sound_data s;
     bus := bus s;
     mixer := mixer s |}.

Definition set_list_item (l : option handle) (b : io_bus) (s : state) : state :=
  {| shortbus_digimax_host_active := shortbus_digimax_host_active s;
     shortbus_digimax_expansion_active := shortbus_digimax_expansion_active s;
     shortbus_digimax_address := shortbus_digimax_address s;
     digimax_device := digimax_device s;
     shortbus_digimax_list_item := l;
     chip_enabled := chip_enabled s;
     digimax_sound_chip_offset := digimax_sound_chip_offset s;
     digimax_sound_data := digimax_sound_data s;
     bus := b;
     mixer := mixer s |}.

Definition set_chip_enabled (v : Z) (s : state) : state :=
  {| shortbus_digimax_host_active := shortbus_digimax_host_active s;
     shortbus_digimax_expansion_active := shortbus_digimax_expansion_active s;
     shortbus_digimax_address := shortbus_digimax_address s;
     digimax_device := digimax_device s;
     shortbus_digimax_list_item := shortbus_digimax_list_item s;
     chip_enabled := v;
     digimax_sound_chip_offset := digimax_sound_chip_offset s;
     digimax_sound_data := digimax_sound_data s;
     bus := bus s;
     mixer := mixer s |}.

Definition set_sound (off : Z) (data : list Z) (m : M) (s : state) : state :=
  {| shortbus_digimax_host_active := shortbus_digimax_host_active s;
     shortbus_digimax_expansion_active := shortbus_digimax_expansion_active s;
     shortbus_digimax_address := shortbus_digimax_address s;
     digimax_device := digimax_device s;
     shortbus_digimax_list_item := shortbus_digimax_list_item s;
     chip_enabled := chip_enabled s;
     digimax_sound_chip_offset := off;
     digimax_sound_data := data;
     bus := bus s;
     mixer := m |}.

(** ** The functions of shortbus_digimax.c *)

(** [digimax_sound_chip_offset = sound_chip_register(&digimax_sound_chip);]
    the offset variable is a [WORD]. *)
Definition shortbus_digimax_sound_chip_init (s : state) : state :=
  let '(off, m) := sound_chip_register (mixer s) in
  set_sound (to_WORD off) (digimax_sound_data s) m s.

(** [digimax_sound_data[addr] = value;
     sound_store((WORD)(digimax_sound_chip_offset | addr), value, 0);]
    The array has four slots; the C store is undefined beyond them, and the
    list update below leaves the array as it is there.  The dispatcher only
    calls with [addr & 0x03]. *)
Definition shortbus_digimax_sound_store (addr value : Z) (s : state) : state :=
  set_sound (digimax_sound_chip_offset s)
    (<[Z.to_nat addr := value]> (digimax_sound_data s))
    (sound_store (to_WORD (Z.lor (digimax_sound_chip_offset s) addr)) value 0 (mixer s))
    s.

(** [BYTE value = sound_read((WORD)(digimax_sound_chip_offset | addr), 0);
     return value;] *)
Definition shortbus_digimax_sound_read (addr : Z) (s : state) : Z :=
  sound_read (to_WORD (Z.lor (digimax_sound_chip_offset s) addr)) 0 (mixer s).

Definition shortbus_digimax_unregister (s : state) : state :=
  let s1 :=
    match shortbus_digimax_list_item s with
    | Some h =>
        set_chip_enabled 0 (set_list_item None (io_source_unregister h (bus s)) s)
    | None => s
    end in
  set_host_active 0 s1.

Definition shortbus_digimax_register (s : state) : state :=
  let s1 :=
    if negb (c_true (chip_enabled s)) && c_true (shortbus_digimax_expansion_active s)
    then
      let '(h, b) := io_source_register (digimax_device s) (bus s) in
      set_chip_enabled 1 (set_list_item (Some h) b s)
    else s in
  set_host_active 1 s1.

Definition set_shortbus_digimax_enabled (value : Z) (s : state) : Z * state :=
  let val := if c_true value then 1 else 0 in
  let s1 :=
    if c_true (shortbus_digimax_host_active s) then
      if negb (c_true (chip_enabled s)) && c_true val then
        let '(h, b) := io_source_register (digimax_device s) (bus s) in
        set_chip_enabled 1 (set_list_item (Some h) b s)
      else if c_true (chip_enabled s) && negb (c_true val) then
        let s' :=
          match shortbus_digimax_list_item s with
          | Some h => set_list_item None (io_source_unregister h (bus s)) s
          | None => s
          end in
        set_chip_enabled 0 s'
      else s
    else s in
  (0, set_expansion_active val s1).

Definition set_shortbus_digimax_base (val : Z) (s : state) : Z * state :=
  let addr := val in
  let old := chip_enabled s in
  if val =? shortbus_digimax_address s then (0, s)
  else
    let s1 := if c_true old then (set_shortbus_digimax_enabled 0 s).2 else s in
    if (addr =? 0xde40) || (addr =? 0xde48) then
      let s2 :=
        set_device {| start_address := to_WORD addr;
                      end_address := to_WORD (addr + 3);
                      address_mask := address_mask (digimax_device s1);
                      io_source_valid := io_source_valid (digimax_device s1) |} s1 in
      let s3 := set_address val s2 in
      let s4 := if c_true old then (set_shortbus_digimax_enabled 1 s3).2 else s3 in
      (0, s4)
    else (-1, s1).

(** ** Start of the program *)

(** Modelled from the spec: the sound chip of the included digimaxcore.c,
    which is not part of this file, starts disabled ("Initial state:
    Unregistered"). *)
Definition chip_enabled_init : Z := 0.

(** Modelled from the spec: the channel offset before the mixer assigned
    one at chip registration; digimaxcore.c is not part of this file. *)
Definition digimax_sound_chip_offset_init : Z := 0.

(** Modelled from the spec: the four 8 bit channel slots of the register
    file, cleared; digimaxcore.c is not part of this file. *)
Definition digimax_sound_data_init : list Z := [0; 0; 0; 0].

(** The static initialisers: [digimax_device] is [0xde40, 0xde47, 0x03] with
    "read is always valid", the two activation flags are 0, the handle is
    NULL, and [shortbus_digimax_address], which has no initialiser, is 0. *)
Definition static_init (m : M) : state :=
  {| shortbus_digimax_host_active := 0;
     shortbus_digimax_expansion_active := 0;
     shortbus_digimax_address := 0;
     digimax_device := {| start_address := 0xde40; end_address := 0xde47;
                          address_mask := 0x03; io_source_valid := 1 |};
     shortbus_digimax_list_item := None;
     chip_enabled := chip_enabled_init;
     digimax_sound_chip_offset := digimax_sound_chip_offset_init;
     digimax_sound_data := digimax_sound_data_init;
     bus := empty_bus;
     mixer := m |}.

(** The factory values of [resources_int]: SBDIGIMAX is 0 and SBDIGIMAXbase
    is 0xde40; the resource system sets them through the two setters. *)
Definition resources_defaults (s : state) : state :=
  (set_shortbus_digimax_base 0xde40 (set_shortbus_digimax_enabled 0 s).2).2.

(** ** Operation sequences *)

Inductive op : Type :=
  | HostRegister
  | HostUnregister
  | SetEnabled (value : Z)
  | SetBase (val : Z).

Definition step (s : state) (o : op) : state :=
  match o with
  | HostRegister => shortbus_digimax_register s
  | HostUnregister => shortbus_digimax_unregister s
  | SetEnabled value => (set_shortbus_digimax_enabled value s).2
  | SetBase val => (set_shortbus_digimax_base val s).2
  end.

Definition run (ops : list op) (s : state) : state := fold_left step ops s.

(** ** Predicates on states *)

(** The device is on the bus: the bus holds a registration of it. *)
Definition on_bus (s : state) : Prop := bus_items (bus s) ≠ [].

(** The descriptor's window is the four addresses from the base address. *)
Definition window_ok (s : state) : Prop :=
  start_address (digimax_device s) = shortbus_digimax_address s ∧
  end_address (digimax_device s) = shortbus_digimax_address s + 3.

(** Either the base address was never set and the descriptor is the static
    one, or the base address is legal and the window starts there. *)
Definition static_or_moved (s : state) : Prop :=
  (shortbus_digimax_address s = 0 ∧
   start_address (digimax_device s) = 0xde40 ∧
   end_address (digimax_device s) = 0xde47) ∨
  ((shortbus_digimax_address s = 0xde40 ∨ shortbus_digimax_address s = 0xde48) ∧
   window_ok s).

(** The handle is set exactly when the mixer's chip flag is 1. *)
Definition handle_flag (s : state) : Prop :=
  shortbus_digimax_list_item s ≠ None ↔ chip_enabled s = 1.

(** The flags hold 0 or 1, the chip flag tells whether the handle is set and
    is the conjunction of the two activation flags, the bus holds exactly the
    registration the handle stands for, under the window the descriptor has
    now, and the log of bus calls is orderly. *)
Record consistent (s : state) : Prop := Build_consistent {
  cons_host : shortbus_digimax_host_active s = 0 ∨ shortbus_digimax_host_active s = 1;
  cons_exp :
    shortbus_digimax_expansion_active s = 0 ∨ shortbus_digimax_expansion_active s = 1;
  cons_chip :
    chip_enabled s = match shortbus_digimax_list_item s with Some _ => 1 | None => 0 end;
  cons_gate :
    chip_enabled s = shortbus_digimax_host_active s * shortbus_digimax_expansion_active s;
  cons_items : bus_items (bus s) = held (shortbus_digimax_list_item s);
  cons_claimed :
    claimed_after (bus_log (bus s))
    = held_window (shortbus_digimax_list_item s) (digimax_device s);
  cons_orderly : orderly (bus_log (bus s))
}.

End Digimax.

Arguments state M : clear implicits.

(** A session on the map mixer: the module once the resource defaults are
    set, and then with the expansion enabled and the IDE64 host attached. *)
Definition started : state map_mixer :=
  resources_defaults (static_init empty_map_mixer).

Definition plugged_in : state map_mixer :=
  run [SetEnabled 1; HostRegister] started.

(** * Bus logs *)

Lemma claimed_after_snoc (log : list bus_event) (e : bus_event) :
  claimed_after (log ++ [e]) = apply_event (claimed_after log) e.
Proof. unfold claimed_after. by rewrite fold_left_app. Qed.

Lemma orderly_nil : orderly [].
Proof. intros n e Hn. by rewrite lookup_nil in Hn. Qed.

Lemma orderly_snoc (log : list bus_event) (e : bus_event) :
  orderly log →
  match e with
  | Claim _ _ _ => claimed_after log = []
  | Release h => ∃ w, claimed_after log = [(h, w)]
  end →
  orderly (log ++ [e]).
Proof.
  intros Hlog He n e' Hn.
  destruct (decide (n < length log)%nat) as [Hlt|Hge].
  - rewrite lookup_app_l in Hn by done.
    rewrite take_app_le by lia. by apply Hlog.
  - apply lookup_lt_Some in Hn as Hlen. rewrite length_app in Hlen. simpl in Hlen.
    assert (n = length log) as -> by lia.
    rewrite list_lookup_middle in Hn by done. injection Hn as <-.
    rewrite take_app_le by lia. by rewrite firstn_all.
Qed.

Lemma orderly_at_most_one (log : list bus_event) :
  orderly log → ∀ n : nat, (length (claimed_after (take n log)) ≤ 1)%nat.
Proof.
  intros Hlog n. induction n as [|n IH]; [by rewrite take_0; simpl; lia|].
  destruct (log !! n) as [e|] eqn:He.
  - rewrite (take_S_r _ _ _ He), claimed_after_snoc.
    specialize (Hlog n e He). destruct e as [h lo hi|h].
    + by rewrite Hlog.
    + destruct Hlog as [w ->]. simpl. rewrite filter_cons_False by (simpl; tauto).
      simpl; lia.
  - apply lookup_ge_None in He.
    rewrite take_ge by lia. rewrite take_ge in IH by lia. done.
Qed.

(** * Consistency of the activation state with the bus *)

Section Invariants.

Context {M : Type} `{Mixer M}.

Implicit Types (s : state M) (m : M).

Lemma static_init_consistent m : consistent (static_init m).
Proof. split; simpl; auto using orderly_nil. Qed.

(** Closes the goals about the bus that a claim or a release leaves. *)
Ltac bus_goal :=
  subst; simpl;
  match goal with
  | |- orderly (_ ++ [_]) => apply orderly_snoc; [done | simpl; eauto]
  | |- filter _ [_] = [] => rewrite filter_cons_False by (simpl; tauto); done
  | |- _ => done
  end.

Ltac open_state s :=
  destruct s as [ha ea ad dev li ce off dat [bn bi bl] mx];
  intros [Hh He Hc Hg Hi Hcl Ho]; simpl in *.

Lemma set_shortbus_digimax_enabled_consistent value s :
  consistent s → consistent (set_shortbus_digimax_enabled value s).2.
Proof.
  open_state s. unfold set_shortbus_digimax_enabled; simpl.
  destruct Hh as [-> | ->], li as [h|]; subst ce; simpl in *;
    destruct (c_true value); simpl.
  all: try lia.
  all: split; simpl; auto; try lia.
  all: try (rewrite claimed_after_snoc, Hcl; simpl).
  all: bus_goal.
Qed.

Lemma shortbus_digimax_register_consistent s :
  consistent s → consistent (shortbus_digimax_register s).
Proof.
  open_state s. unfold shortbus_digimax_register; simpl.
  destruct He as [-> | ->], li as [h|]; subst ce; simpl in *.
  all: split; simpl; auto; try lia.
  all: try (rewrite claimed_after_snoc, Hcl; simpl).
  all: bus_goal.
Qed.

Lemma shortbus_digimax_unregister_consistent s :
  consistent s → consistent (shortbus_digimax_unregister s).
Proof.
  open_state s. unfold shortbus_digimax_unregister; simpl.
  destruct li as [h|]; subst ce; simpl in *.
  all: split; simpl; auto; try lia.
  all: try (rewrite claimed_after_snoc, Hcl; simpl).
  all: bus_goal.
Qed.

(** While nothing is registered the descriptor may be rewritten. *)
Lemma set_device_consistent d s :
  consistent s → shortbus_digimax_list_item s = None → consistent (set_device d s).
Proof. open_state s. intros ->. split; simpl in *; auto. Qed.

Lemma set_address_consistent v s : consistent s → consistent (set_address v s).
Proof. open_state s. split; simpl in *; auto. Qed.

Lemma set_shortbus_digimax_enabled_0_item s :
  consistent s → shortbus_digimax_list_item (set_shortbus_digimax_enabled 0 s).2 = None.
Proof.
  intros Hs. apply (set_shortbus_digimax_enabled_consistent 0) in Hs as Hs'.
  destruct Hs' as [_ _ Hc Hg _ _ _].
  assert (shortbus_digimax_expansion_active (set_shortbus_digimax_enabled 0 s).2 = 0)
    as He by done.
  rewrite He, Hc in Hg. destruct (shortbus_digimax_list_item _); [lia | done].
Qed.

Lemma set_shortbus_digimax_base_consistent val s :
  consistent s → consistent (set_shortbus_digimax_base val s).2.
Proof.
  intros Hs. unfold set_shortbus_digimax_base.
  destruct (val =? shortbus_digimax_address s); [done|].
  set (s1 := if c_true (chip_enabled s) then _ else s).
  assert (consistent s1 ∧ shortbus_digimax_list_item s1 = None) as [Hs1 Hnone].
  { subst s1. destruct (c_true (chip_enabled s)) eqn:Hold.
    - split; [by apply set_shortbus_digimax_enabled_consistent|].
      by apply set_shortbus_digimax_enabled_0_item.
    - split; [done|]. destruct Hs as [_ _ Hc _ _ _ _].
      unfold c_true in Hold. destruct (shortbus_digimax_list_item s); [|done].
      rewrite Hc in Hold. done. }
  destruct ((val =? 0xde40) || (val =? 0xde48)); [|done].
  cbv zeta. destruct (c_true (chip_enabled s)); cbn [snd].
  - apply set_shortbus_digimax_enabled_consistent, set_address_consistent.
    by apply set_device_consistent.
  - apply set_address_consistent. by apply set_device_consistent.
Qed.

Lemma step_consistent s o : consistent s → consistent (step s o).
Proof.
  destruct o as [| |value|val]; cbn [step].
  - apply shortbus_digimax_register_consistent.
  - apply shortbus_digimax_unregister_consistent.
  - apply set_shortbus_digimax_enabled_consistent.
  - apply set_shortbus_digimax_base_consistent.
Qed.

Lemma run_consistent ops s : consistent s → consistent (run ops s).
Proof.
  revert s. induction ops as [|o ops IH]; intros s Hs; [done|].
  apply IH. by apply step_consistent.
Qed.

Lemma reachable_consistent ops m : consistent (run ops (static_init m)).
Proof. apply run_consistent, static_init_consistent. Qed.

End Invariants.

(** * The register file and the mixer *)

#[export] Instance map_mixer_EchoMixer : EchoMixer map_mixer.
Proof.
  split. intros m a v c. unfold sound_read, sound_store; simpl.
  by rewrite lookup_insert_eq.
Qed.

Lemma lor_WORD (x y : Z) :
  0 ≤ x < 65536 → 0 ≤ y < 65536 → 0 ≤ Z.lor x y < 65536.
Proof.
  intros Hx Hy.
  assert (0 ≤ Z.lor x y) as Hnn by (apply Z.lor_nonneg; lia).
  split; [done|].
  destruct (decide (Z.lor x y = 0)) as [->|Hnz]; [lia|].
  change 65536 with (2 ^ 16). apply Z.log2_lt_pow2; [lia|].
  rewrite Z.log2_lor by lia.
  apply Z.max_lub_lt.
  - destruct (decide (x = 0)) as [->|]; [done|]. apply Z.log2_lt_pow2; lia.
  - destruct (decide (y = 0)) as [->|]; [done|]. apply Z.log2_lt_pow2; lia.
Qed.

(** The cast of the source changes nothing on a channel address. *)
Lemma to_WORD_channel (off a : Z) :
  0 ≤ off < 65536 → 0 ≤ a ≤ 3 → to_WORD (Z.lor off a) = Z.lor off a.
Proof.
  intros Hoff Ha. unfold to_WORD. apply Z.mod_small, lor_WORD; lia.
Qed.

Lemma shortbus_digimax_sound_chip_init_offset {M : Type} `{Mixer M} (s : state M) :
  0 ≤ digimax_sound_chip_offset (shortbus_digimax_sound_chip_init s) < 65536.
Proof.
  unfold shortbus_digimax_sound_chip_init.
  destruct (sound_chip_register (mixer s)) as [off m]. simpl.
  unfold to_WORD. apply Z.mod_pos_bound. lia.
Qed.

(** C6. Round trip through an echoing mixer: for a local channel [c] in
    0..3 and a byte [v], the device write of [v] to [c] followed by the
    device read of [c] gives [v], whenever a mixer read of a global address
    gives the last value stored there. *)
Theorem sound_store_then_read {M : Type} `{EchoMixer M} (s : state M) (c v : Z) :
  0 ≤ c ≤ 3 → 0 ≤ v < 256 →
  shortbus_digimax_sound_read c (shortbus_digimax_sound_store c v s) = v.
Proof.
  intros _ _. unfold shortbus_digimax_sound_read, shortbus_digimax_sound_store.
  simpl. apply sound_read_store.
Qed.

Lemma sound_store_then_read_witness :
  (0 ≤ 2 ≤ 3) ∧ (0 ≤ 77 < 256) ∧
  shortbus_digimax_sound_read 2
    (shortbus_digimax_sound_store 2 77 (shortbus_digimax_sound_chip_init plugged_in)) = 77.
Proof.
  split; [lia|]. split; [lia|].
  apply (sound_store_then_read (shortbus_digimax_sound_chip_init plugged_in) 2 77); lia.
Defined.

(** C7. For a local address [a] in 0..3 the device write puts the value in
    slot [a] of the channel data, leaves the other slots, and hands the mixer
    a store at global address (channel offset | a) of that value with
    context 0; the device read is the mixer's read of (channel offset | a)
    with context 0.  The channel offset is a 16 bit value and the channel
    data has its four slots. *)
Theorem sound_store_read_forward {M : Type} `{Mixer M} (s : state M) (a v : Z) :
  0 ≤ a ≤ 3 →
  0 ≤ digimax_sound_chip_offset s < 65536 →
  length (digimax_sound_data s) = 4%nat →
  let s' := shortbus_digimax_sound_store a v s in
  digimax_sound_data s' !! Z.to_nat a = Some v ∧
  (∀ i : nat, i ≠ Z.to_nat a → digimax_sound_data s' !! i = digimax_sound_data s !! i) ∧
  mixer s' = sound_store (Z.lor (digimax_sound_chip_offset s) a) v 0 (mixer s) ∧
  shortbus_digimax_sound_read a s
  = sound_read (Z.lor (digimax_sound_chip_offset s) a) 0 (mixer s).
Proof.
  intros Ha Hoff Hlen. unfold shortbus_digimax_sound_store, shortbus_digimax_sound_read.
  simpl. rewrite to_WORD_channel by done. repeat split.
  - apply list_lookup_insert_eq. lia.
  - intros i Hi. by apply list_lookup_insert_ne.
Qed.

Lemma sound_store_read_forward_witness :
  let s := shortbus_digimax_sound_chip_init (shortbus_digimax_sound_chip_init plugged_in) in
  digimax_sound_chip_offset s = 0x20 ∧
  digimax_sound_data (shortbus_digimax_sound_store 3 200 s) = [0; 0; 0; 200] ∧
  mixer (shortbus_digimax_sound_store 3 200 s) = sound_store 0x23 200 0 (mixer s) ∧
  shortbus_digimax_sound_read 3 s = sound_read 0x23 0 (mixer s).
Proof.
  intros s.
  assert (digimax_sound_chip_offset s = 0x20) as Hoff by reflexivity.
  destruct (sound_store_read_forward s 3 200) as (_ & _ & Hm & Hr);
    [lia | rewrite Hoff; lia | reflexivity |].
  rewrite Hoff in Hm, Hr.
  split; [exact Hoff|]. split; [reflexivity|]. split; [exact Hm | exact Hr].
Defined.

(** * The setters *)

(** The first test of the base setter. *)
Lemma set_shortbus_digimax_base_eq {M : Type} `{Mixer M} (s : state M) (val : Z) :
  val = shortbus_digimax_address s → set_shortbus_digimax_base val s = (0, s).
Proof. intros ->. unfold set_shortbus_digimax_base. by rewrite Z.eqb_refl. Qed.

(** C5. Setting the base address to the value it has is a successful no-op:
    the call returns 0 and the whole state, the bus and its log of claims and
    releases included, is as before. *)
Theorem set_shortbus_digimax_base_same {M : Type} `{Mixer M} (s : state M) :
  set_shortbus_digimax_base (shortbus_digimax_address s) s = (0, s).
Proof. by apply set_shortbus_digimax_base_eq. Qed.

(** The expansion setter while the host is inactive, for any C value. *)
Lemma set_shortbus_digimax_enabled_host_inactive {M : Type} `{Mixer M}
    (s : state M) (value : Z) :
  shortbus_digimax_host_active s = 0 →
  set_shortbus_digimax_enabled value s
  = (0, set_expansion_active (if c_true value then 1 else 0) s).
Proof. intros Hh. unfold set_shortbus_digimax_enabled. by rewrite Hh. Qed.

(** C8. While the host is inactive, the expansion setter called with a
    boolean [v] returns 0 and changes the expansion flag to [v] and nothing
    else: host flag, base address, descriptor (window and mask), handle, chip
    flag, channel offset, channel data, the bus with its registrations and
    its log of claims and releases, and the mixer are those of the state
    before. *)
Theorem set_shortbus_digimax_enabled_deferred {M : Type} `{Mixer M}
    (s : state M) (v : Z) :
  shortbus_digimax_host_active s = 0 →
  v = 0 ∨ v = 1 →
  let r := set_shortbus_digimax_enabled v s in
  r.1 = 0 ∧
  shortbus_digimax_expansion_active r.2 = v ∧
  shortbus_digimax_host_active r.2 = shortbus_digimax_host_active s ∧
  shortbus_digimax_address r.2 = shortbus_digimax_address s ∧
  digimax_device r.2 = digimax_device s ∧
  shortbus_digimax_list_item r.2 = shortbus_digimax_list_item s ∧
  chip_enabled r.2 = chip_enabled s ∧
  digimax_sound_chip_offset r.2 = digimax_sound_chip_offset s ∧
  digimax_sound_data r.2 = digimax_sound_data s ∧
  bus r.2 = bus s ∧
  mixer r.2 = mixer s.
Proof.
  intros Hh Hv. destruct s as [ha ea ad dev li ce off dat b mx]. simpl in Hh. subst ha.
  unfold set_shortbus_digimax_enabled, set_expansion_active. cbn.
  destruct Hv as [-> | ->]; cbn; repeat split.
Qed.

Lemma set_shortbus_digimax_enabled_deferred_witness :
  shortbus_digimax_host_active started = 0 ∧
  shortbus_digimax_expansion_active (set_shortbus_digimax_enabled 1 started).2 = 1 ∧
  bus (set_shortbus_digimax_enabled 1 started).2 = bus started.
Proof.
  assert (shortbus_digimax_host_active started = 0) as Hh by reflexivity.
  pose proof (set_shortbus_digimax_enabled_deferred started 1 Hh (or_intror eq_refl))
    as Hw.
  cbv zeta in Hw. destruct Hw as (_ & He & _ & _ & _ & _ & _ & _ & _ & Hb & _).
  split; [exact Hh|]. split; [exact He | exact Hb].
Defined.

(** X3. A value outside the legal set, different from the current address, is
    refused without any change while the chip flag is 0. *)
Lemma set_shortbus_digimax_base_invalid_disabled {M : Type} `{Mixer M}
    (s : state M) (val : Z) :
  val ≠ 0xde40 → val ≠ 0xde48 → val ≠ shortbus_digimax_address s →
  chip_enabled s = 0 →
  set_shortbus_digimax_base val s = (-1, s).
Proof.
  intros H40 H48 Hne Hce. unfold set_shortbus_digimax_base.
  apply Z.eqb_neq in H40, H48, Hne. by rewrite Hne, Hce, H40, H48.
Qed.

(** X4. With the chip flag set and the host active, such a value is refused
    after the expansion was switched off: the handle is gone, and the chip
    flag and the expansion flag are 0. *)
Lemma set_shortbus_digimax_base_invalid_enabled {M : Type} `{Mixer M}
    (s : state M) (val : Z) :
  val ≠ 0xde40 → val ≠ 0xde48 → val ≠ shortbus_digimax_address s →
  chip_enabled s ≠ 0 → shortbus_digimax_host_active s ≠ 0 →
  let r := set_shortbus_digimax_base val s in
  r.1 = -1 ∧
  shortbus_digimax_list_item r.2 = None ∧
  chip_enabled r.2 = 0 ∧
  shortbus_digimax_expansion_active r.2 = 0 ∧
  shortbus_digimax_address r.2 = shortbus_digimax_address s.
Proof.
  intros H40 H48 Hne Hce Hh. unfold set_shortbus_digimax_base.
  apply Z.eqb_neq in H40, H48, Hne, Hce, Hh. rewrite Hne, H40, H48.
  unfold set_shortbus_digimax_enabled, c_true. rewrite Hce, Hh. simpl.
  by destruct (shortbus_digimax_list_item s) eqn:Hli.
Qed.

(** C1. The base setter called with the illegal value 0xde50 on the plugged-in
    device (host active, expansion active, window claimed under handle 0)
    returns -1, and by then it has released the window, cleared the handle
    and the chip flag, and set the expansion flag to 0; the base address
    and the host flag are as before. *)
Theorem set_shortbus_digimax_base_invalid_unplugs :
  let r := set_shortbus_digimax_base 0xde50 plugged_in in
  (shortbus_digimax_list_item plugged_in = Some 0%nat ∧
   chip_enabled plugged_in = 1 ∧
   shortbus_digimax_host_active plugged_in = 1 ∧
   shortbus_digimax_expansion_active plugged_in = 1 ∧
   shortbus_digimax_address plugged_in = 0xde40 ∧
   bus_items (bus plugged_in) = [0%nat]) ∧
  r.1 = -1 ∧
  (shortbus_digimax_list_item r.2 = None ∧
   chip_enabled r.2 = 0 ∧
   shortbus_digimax_host_active r.2 = 1 ∧
   shortbus_digimax_expansion_active r.2 = 0 ∧
   shortbus_digimax_address r.2 = 0xde40 ∧
   bus_items (bus r.2) = [] ∧
   bus_log (bus r.2) = [Claim 0%nat 0xde40 0xde43; Release 0%nat]).
Proof. vm_compute. repeat split. Qed.

(** * The activation state machine *)

Section Activation.

Context {M : Type} `{Mixer M}.

Implicit Types (s : state M) (m : M).

Lemma consistent_registered s h :
  consistent s → shortbus_digimax_list_item s = Some h →
  chip_enabled s = 1 ∧
  shortbus_digimax_host_active s = 1 ∧
  shortbus_digimax_expansion_active s = 1 ∧
  bus_items (bus s) = [h] ∧
  claimed_after (bus_log (bus s))
  = [(h, (start_address (digimax_device s), end_address (digimax_device s)))].
Proof.
  intros [Hh He Hc Hg Hi Hcl _] Hli. rewrite Hli in *. simpl in *.
  rewrite Hc in Hg. repeat split; try done; lia.
Qed.

Lemma consistent_unregistered s :
  consistent s → shortbus_digimax_list_item s = None →
  chip_enabled s = 0 ∧ bus_items (bus s) = [] ∧ claimed_after (bus_log (bus s)) = [].
Proof. intros [_ _ Hc _ Hi Hcl _] Hli. rewrite Hli in *. done. Qed.

Lemma unregister_register_consistent s h :
  consistent s → shortbus_digimax_list_item s = Some h →
  let s1 := shortbus_digimax_unregister s in
  let s2 := shortbus_digimax_register s1 in
  (bus_log (bus s1) = bus_log (bus s) ++ [Release h] ∧
   bus_items (bus s1) = [] ∧
   shortbus_digimax_list_item s1 = None ∧
   chip_enabled s1 = 0 ∧
   shortbus_digimax_host_active s1 = 0 ∧
   shortbus_digimax_expansion_active s1 = 1) ∧
  (bus_log (bus s2)
   = bus_log (bus s1)
     ++ [Claim (bus_next (bus s)) (start_address (digimax_device s))
           (end_address (digimax_device s))] ∧
   bus_items (bus s2) = [bus_next (bus s)] ∧
   shortbus_digimax_list_item s2 = Some (bus_next (bus s)) ∧
   chip_enabled s2 = 1 ∧
   shortbus_digimax_host_active s2 = 1 ∧
   shortbus_digimax_expansion_active s2 = 1).
Proof.
  intros Hs Hli.
  destruct (consistent_registered s h Hs Hli) as (Hce & Hh & He & Hi & _).
  destruct s as [ha ea ad dev li ce off dat [bn bi bl] mx]. simpl in *. subst.
  unfold shortbus_digimax_unregister, shortbus_digimax_register. simpl.
  rewrite filter_cons_False by (simpl; tauto). done.
Qed.

Lemma consistent_gate s :
  consistent s →
  (on_bus s ↔ shortbus_digimax_host_active s ≠ 0 ∧ shortbus_digimax_expansion_active s ≠ 0) ∧
  (chip_enabled s = 1
   ↔ shortbus_digimax_host_active s ≠ 0 ∧ shortbus_digimax_expansion_active s ≠ 0) ∧
  (chip_enabled s = 0 ∨ chip_enabled s = 1).
Proof.
  intros [Hh He Hc Hg Hi _ _]. unfold on_bus. rewrite Hi.
  destruct (shortbus_digimax_list_item s); simpl; rewrite Hc in *.
  - repeat split; try done; try lia; by right.
  - repeat split; try done; try lia; by left.
Qed.

End Activation.

(** C2. After any finite sequence of host registrations, host
    unregistrations, calls of the expansion setter and calls of the base
    setter (so after each operation of such a sequence, its prefixes being
    such sequences too), the device is on the bus exactly when the host flag
    and the expansion flag are both set, and so is the mixer's chip flag. *)
Theorem registered_iff_host_and_expansion {M : Type} `{Mixer M} (m : M) (ops : list op) :
  let s := run ops (static_init m) in
  (on_bus s ↔ shortbus_digimax_host_active s ≠ 0 ∧ shortbus_digimax_expansion_active s ≠ 0) ∧
  (chip_enabled s = 1
   ↔ shortbus_digimax_host_active s ≠ 0 ∧ shortbus_digimax_expansion_active s ≠ 0) ∧
  (chip_enabled s = 0 ∨ chip_enabled s = 1).
Proof. apply consistent_gate, reachable_consistent. Qed.

(** C9. In a reachable state where the device is registered under a handle
    [h], the host unregistration releases [h], empties the bus of the device,
    clears the handle and the chip flag and the host flag, and leaves the
    expansion flag at 1; the host registration that follows, with no call of
    the expansion setter in between, claims the descriptor's window again
    and sets handle, chip flag and host flag. *)
Theorem host_unregister_then_register {M : Type} `{Mixer M}
    (m : M) (ops : list op) (h : handle) :
  let s := run ops (static_init m) in
  shortbus_digimax_list_item s = Some h →
  let s1 := shortbus_digimax_unregister s in
  let s2 := shortbus_digimax_register s1 in
  (shortbus_digimax_host_active s = 1 ∧ shortbus_digimax_expansion_active s = 1) ∧
  (bus_log (bus s1) = bus_log (bus s) ++ [Release h] ∧
   bus_items (bus s1) = [] ∧
   shortbus_digimax_list_item s1 = None ∧
   chip_enabled s1 = 0 ∧
   shortbus_digimax_host_active s1 = 0 ∧
   shortbus_digimax_expansion_active s1 = 1) ∧
  (bus_log (bus s2)
   = bus_log (bus s1)
     ++ [Claim (bus_next (bus s)) (start_address (digimax_device s))
           (end_address (digimax_device s))] ∧
   bus_items (bus s2) = [bus_next (bus s)] ∧
   shortbus_digimax_list_item s2 = Some (bus_next (bus s)) ∧
   chip_enabled s2 = 1 ∧
   shortbus_digimax_host_active s2 = 1 ∧
   shortbus_digimax_expansion_active s2 = 1).
Proof.
  intros s Hli. pose proof (reachable_consistent ops m) as Hs. fold s in Hs.
  split.
  - destruct (consistent_registered s h Hs Hli) as (_ & Hh & He & _). done.
  - by apply unregister_register_consistent.
Qed.

Lemma host_unregister_then_register_witness :
  let s1 := shortbus_digimax_unregister plugged_in in
  let s2 := shortbus_digimax_register s1 in
  shortbus_digimax_list_item plugged_in = Some 0%nat ∧
  bus_log (bus s1) = [Claim 0%nat 0xde40 0xde43; Release 0%nat] ∧
  shortbus_digimax_expansion_active s1 = 1 ∧
  bus_log (bus s2)
  = [Claim 0%nat 0xde40 0xde43; Release 0%nat; Claim 1%nat 0xde40 0xde43].
Proof.
  intros s1 s2.
  pose proof (host_unregister_then_register empty_map_mixer
                [SetEnabled 0; SetBase 0xde40; SetEnabled 1; HostRegister] 0%nat
                eq_refl) as (_ & (Hlog1 & _ & _ & _ & _ & He1) & (Hlog2 & _)).
  split; [reflexivity|]. split; [exact Hlog1|]. split; [exact He1|].
  etrans; [exact Hlog2 | reflexivity].
Defined.

(** * The address window *)

Section Window.

Context {M : Type} `{Mixer M}.

Implicit Types (s : state M) (m : M).

Lemma run_app (ops1 ops2 : list op) s : run (ops1 ++ ops2) s = run ops2 (run ops1 s).
Proof. apply fold_left_app. Qed.

(** Neither the host calls nor the expansion setter touch the descriptor or
    the base address. *)
Lemma set_shortbus_digimax_enabled_frame value s :
  digimax_device (set_shortbus_digimax_enabled value s).2 = digimax_device s ∧
  shortbus_digimax_address (set_shortbus_digimax_enabled value s).2
  = shortbus_digimax_address s.
Proof.
  unfold set_shortbus_digimax_enabled.
  destruct (c_true (shortbus_digimax_host_active s)); [|done].
  destruct (negb (c_true (chip_enabled s)) && c_true _); [done|].
  destruct (c_true (chip_enabled s) && negb _); [|done].
  by destruct (shortbus_digimax_list_item s).
Qed.

Lemma shortbus_digimax_register_frame s :
  digimax_device (shortbus_digimax_register s) = digimax_device s ∧
  shortbus_digimax_address (shortbus_digimax_register s) = shortbus_digimax_address s.
Proof.
  unfold shortbus_digimax_register.
  by destruct (negb (c_true (chip_enabled s)) && c_true _).
Qed.

Lemma shortbus_digimax_unregister_frame s :
  digimax_device (shortbus_digimax_unregister s) = digimax_device s ∧
  shortbus_digimax_address (shortbus_digimax_unregister s) = shortbus_digimax_address s.
Proof.
  unfold shortbus_digimax_unregister. by destruct (shortbus_digimax_list_item s).
Qed.

Lemma window_ok_frame s s' :
  digimax_device s' = digimax_device s ∧
  shortbus_digimax_address s' = shortbus_digimax_address s →
  window_ok s → window_ok s'.
Proof. unfold window_ok. by intros [-> ->]. Qed.

(** A base change that is accepted writes the window from the new base. *)
Lemma set_shortbus_digimax_base_window val s :
  val ≠ shortbus_digimax_address s →
  (set_shortbus_digimax_base val s).1 = 0 →
  window_ok (set_shortbus_digimax_base val s).2.
Proof.
  intros Hne. unfold set_shortbus_digimax_base.
  apply Z.eqb_neq in Hne. rewrite Hne.
  destruct ((val =? 0xde40) || (val =? 0xde48)) eqn:Hlegal; [|done].
  intros _. cbv zeta. cbn [snd].
  set (s3 := set_address val _).
  assert (window_ok s3) as Hs3.
  { apply orb_true_iff in Hlegal as [Hv | Hv]; apply Z.eqb_eq in Hv; by subst val. }
  destruct (c_true (chip_enabled s)); [|done].
  eapply window_ok_frame; [apply set_shortbus_digimax_enabled_frame | done].
Qed.

Lemma set_shortbus_digimax_base_window_ok val s :
  window_ok s → window_ok (set_shortbus_digimax_base val s).2.
Proof.
  intros Hs.
  destruct (decide (val = shortbus_digimax_address s)) as [->|Hne].
  { by rewrite set_shortbus_digimax_base_eq. }
  destruct (decide ((set_shortbus_digimax_base val s).1 = 0)) as [Hok|Hko].
  { by apply set_shortbus_digimax_base_window. }
  revert Hko. unfold set_shortbus_digimax_base.
  apply Z.eqb_neq in Hne. rewrite Hne.
  destruct ((val =? 0xde40) || (val =? 0xde48)); [done|].
  intros _. cbn [snd]. destruct (c_true (chip_enabled s)); [|done].
  eapply window_ok_frame; [apply set_shortbus_digimax_enabled_frame | done].
Qed.

Lemma step_window_ok s o : window_ok s → window_ok (step s o).
Proof.
  intros Hs. destruct o as [| |value|val]; cbn [step].
  - eapply window_ok_frame; [apply shortbus_digimax_register_frame | done].
  - eapply window_ok_frame; [apply shortbus_digimax_unregister_frame | done].
  - eapply window_ok_frame; [apply set_shortbus_digimax_enabled_frame | done].
  - by apply set_shortbus_digimax_base_window_ok.
Qed.

Lemma run_window_ok ops s : window_ok s → window_ok (run ops s).
Proof.
  revert s. induction ops as [|o ops IH]; intros s Hs; [done|].
  apply IH. by apply step_window_ok.
Qed.

(** A base change to a new legal value on a registered device. *)
Lemma set_shortbus_digimax_base_registered val s h :
  consistent s → shortbus_digimax_list_item s = Some h →
  val = 0xde40 ∨ val = 0xde48 →
  val ≠ shortbus_digimax_address s →
  let r := set_shortbus_digimax_base val s in
  r.1 = 0 ∧
  bus_log (bus r.2)
  = bus_log (bus s) ++ [Release h; Claim (bus_next (bus s)) val (val + 3)] ∧
  shortbus_digimax_list_item r.2 = Some (bus_next (bus s)) ∧
  bus_items (bus r.2) = [bus_next (bus s)].
Proof.
  intros Hs Hli Hlegal Hne.
  destruct (consistent_registered s h Hs Hli) as (Hce & Hh & He & Hi & _).
  destruct s as [ha ea ad dev li ce off dat [bn bi bl] mx]. simpl in *. subst.
  apply Z.eqb_neq in Hne.
  unfold set_shortbus_digimax_base. simpl. rewrite Hne.
  rewrite filter_cons_False by (simpl; tauto).
  destruct Hlegal as [-> | ->]; simpl; by rewrite <- app_assoc.
Qed.

End Window.

(** C3, as stated, fails at the start of the program: the statically
    initialised descriptor spans 0xde40..0xde47, which is neither
    0xde40 + 3 nor the base address variable + 3, and with the expansion
    enabled and the host attached in that state it is this window of eight
    addresses that is claimed on the bus. *)
Lemma static_window_spans_eight :
  let s0 := static_init empty_map_mixer in
  let s := run [SetEnabled 1; HostRegister] s0 in
  start_address (digimax_device s0) = 0xde40 ∧
  end_address (digimax_device s0) = 0xde47 ∧
  end_address (digimax_device s0) ≠ 0xde40 + 3 ∧
  ¬ window_ok s0 ∧
  claimed_after (bus_log (bus s)) = [(0%nat, (0xde40, 0xde47))] ∧
  ¬ window_ok s.
Proof.
  cbv zeta. repeat split; try reflexivity; try (intros Heq; discriminate Heq).
  - intros [Heq _]. discriminate Heq.
  - intros [Heq _]. discriminate Heq.
Qed.

(** C3, amended. Once the base setter has accepted a value different from
    the current base address, in the state it leaves and in every state
    reached from there by further operations, the descriptor's window is the
    four addresses from the current base address (start = base,
    end = base + 3), and a window claimed on the bus is that window. *)
Theorem window_after_base_change {M : Type} `{Mixer M}
    (m : M) (pre : list op) (val : Z) (ops : list op) :
  let s := run pre (static_init m) in
  val ≠ shortbus_digimax_address s →
  (set_shortbus_digimax_base val s).1 = 0 →
  let s' := run ops (set_shortbus_digimax_base val s).2 in
  window_ok s' ∧
  claimed_after (bus_log (bus s'))
  = match shortbus_digimax_list_item s' with
    | Some h => [(h, (shortbus_digimax_address s', shortbus_digimax_address s' + 3))]
    | None => []
    end.
Proof.
  intros s Hne Hok s'.
  assert (window_ok s') as Hw.
  { apply run_window_ok. by apply set_shortbus_digimax_base_window. }
  split; [done|].
  assert (consistent s') as Hs'.
  { apply run_consistent. apply (step_consistent s (SetBase val)).
    apply reachable_consistent. }
  rewrite (cons_claimed _ Hs'). destruct Hw as [Hlo Hhi].
  destruct (shortbus_digimax_list_item s'); simpl; by rewrite ?Hlo, ?Hhi.
Qed.

Lemma window_after_base_change_witness :
  0xde40 ≠ shortbus_digimax_address (run [SetEnabled 0] (static_init empty_map_mixer)) ∧
  (set_shortbus_digimax_base 0xde40
     (run [SetEnabled 0] (static_init empty_map_mixer))).1 = 0 ∧
  window_ok
    (run [SetEnabled 1; HostRegister; SetBase 0xde48]
       (set_shortbus_digimax_base 0xde40
          (run [SetEnabled 0] (static_init empty_map_mixer))).2).
Proof.
  assert (0xde40
          ≠ shortbus_digimax_address (run [SetEnabled 0] (static_init empty_map_mixer)))
    as Hne.
  { intros Heq. vm_compute in Heq. discriminate Heq. }
  assert ((set_shortbus_digimax_base 0xde40
             (run [SetEnabled 0] (static_init empty_map_mixer))).1 = 0) as Hok.
  { vm_compute. reflexivity. }
  split; [exact Hne|]. split; [exact Hok|].
  exact (proj1 (window_after_base_change empty_map_mixer [SetEnabled 0] 0xde40
                  [SetEnabled 1; HostRegister; SetBase 0xde48] Hne Hok)).
Defined.

(** C4. After any sequence of operations the device has at most one
    registration on the bus, and at every point of the log of bus calls at
    most one window is claimed.  A base change to a legal value other than
    the current one, on a device registered under [h], succeeds and adds to
    the log the release of [h] followed by one claim of the window
    [val, val + 3]: after the release nothing is claimed, after the claim
    that window alone. *)
Theorem one_window_at_a_time {M : Type} `{Mixer M} (m : M) (ops : list op) :
  let s := run ops (static_init m) in
  (length (bus_items (bus s)) ≤ 1)%nat ∧
  (∀ n : nat, (length (claimed_after (take n (bus_log (bus s)))) ≤ 1)%nat) ∧
  (∀ (h : handle) (val : Z),
     shortbus_digimax_list_item s = Some h →
     val = 0xde40 ∨ val = 0xde48 →
     val ≠ shortbus_digimax_address s →
     let r := set_shortbus_digimax_base val s in
     r.1 = 0 ∧
     bus_log (bus r.2)
     = bus_log (bus s) ++ [Release h; Claim (bus_next (bus s)) val (val + 3)] ∧
     claimed_after (bus_log (bus s) ++ [Release h]) = [] ∧
     claimed_after (bus_log (bus r.2)) = [(bus_next (bus s), (val, val + 3))]).
Proof.
  intros s. pose proof (reachable_consistent ops m) as Hs. fold s in Hs.
  split; [|split].
  - rewrite (cons_items _ Hs). destruct (shortbus_digimax_list_item s); simpl; lia.
  - apply orderly_at_most_one, (cons_orderly _ Hs).
  - intros h val Hli Hlegal Hne.
    destruct (set_shortbus_digimax_base_registered val s h Hs Hli Hlegal Hne)
      as (Hret & Hlog & _ & _).
    destruct (consistent_registered s h Hs Hli) as (_ & _ & _ & _ & Hcl).
    assert (claimed_after (bus_log (bus s) ++ [Release h]) = []) as Hrel.
    { rewrite claimed_after_snoc, Hcl. simpl.
      by rewrite filter_cons_False by (simpl; tauto). }
    repeat split; try done.
    rewrite Hlog.
    change [Release h; Claim (bus_next (bus s)) val (val + 3)]
      with ([Release h] ++ [Claim (bus_next (bus s)) val (val + 3)]).
    by rewrite app_assoc, claimed_after_snoc, Hrel.
Qed.

Lemma one_window_at_a_time_witness :
  shortbus_digimax_list_item
    (run [SetBase 0xde40; SetEnabled 1; HostRegister] (static_init empty_map_mixer))
  = Some 0%nat ∧
  0xde48
  ≠ shortbus_digimax_address
      (run [SetBase 0xde40; SetEnabled 1; HostRegister] (static_init empty_map_mixer)) ∧
  claimed_after
    (bus_log
       (bus
          (set_shortbus_digimax_base 0xde48
             (run [SetBase 0xde40; SetEnabled 1; HostRegister]
                (static_init empty_map_mixer))).2))
  = [(bus_next
        (bus (run [SetBase 0xde40; SetEnabled 1; HostRegister]
                (static_init empty_map_mixer))),
      (0xde48, 0xde48 + 3))].
Proof.
  assert (shortbus_digimax_list_item
            (run [SetBase 0xde40; SetEnabled 1; HostRegister]
               (static_init empty_map_mixer)) = Some 0%nat) as Hli.
  { vm_compute. reflexivity. }
  assert (0xde48
          ≠ shortbus_digimax_address
              (run [SetBase 0xde40; SetEnabled 1; HostRegister]
                 (static_init empty_map_mixer))) as Hne.
  { intros Heq. vm_compute in Heq. discriminate Heq. }
  split; [exact Hli|]. split; [exact Hne|].
  exact (proj2 (proj2 (proj2
           (proj2 (proj2 (one_window_at_a_time empty_map_mixer
                            [SetBase 0xde40; SetEnabled 1; HostRegister]))
              0%nat 0xde48 Hli (or_intror eq_refl) Hne)))).
Defined.

(** * The handle and the chip flag *)

Section Handle.

Context {M : Type} `{Mixer M}.

Implicit Types (s : state M) (m : M).

Ltac flag_cases :=
  unfold handle_flag, c_true in *; simpl in *;
  repeat (case_match; simpl in *);
  repeat match goal with
         | H : (_ =? _) = true |- _ => apply Z.eqb_eq in H
         | H : (_ =? _) = false |- _ => apply Z.eqb_neq in H
         end;
  subst; simpl in *; try (split; intros; (done || lia || tauto)).

Lemma set_shortbus_digimax_enabled_handle_flag value s :
  handle_flag s → handle_flag (set_shortbus_digimax_enabled value s).2.
Proof.
  destruct s as [ha ea ad dev li ce off dat b mx].
  unfold set_shortbus_digimax_enabled. intros Hf. flag_cases.
Qed.

Lemma shortbus_digimax_register_handle_flag s :
  handle_flag s → handle_flag (shortbus_digimax_register s).
Proof.
  destruct s as [ha ea ad dev li ce off dat b mx].
  unfold shortbus_digimax_register. intros Hf. flag_cases.
Qed.

Lemma shortbus_digimax_unregister_handle_flag s :
  handle_flag s → handle_flag (shortbus_digimax_unregister s).
Proof.
  destruct s as [ha ea ad dev li ce off dat b mx].
  unfold shortbus_digimax_unregister. intros Hf. flag_cases.
Qed.

Lemma set_shortbus_digimax_base_handle_flag val s :
  handle_flag s → handle_flag (set_shortbus_digimax_base val s).2.
Proof.
  intros Hf. unfold set_shortbus_digimax_base.
  destruct (val =? shortbus_digimax_address s); [done|].
  set (s1 := if c_true (chip_enabled s) then _ else s).
  assert (handle_flag s1) as Hs1.
  { subst s1. destruct (c_true (chip_enabled s)); [|done].
    by apply set_shortbus_digimax_enabled_handle_flag. }
  destruct ((val =? 0xde40) || (val =? 0xde48)); [|done].
  cbv zeta. cbn [snd]. destruct (c_true (chip_enabled s)); [|done].
  by apply set_shortbus_digimax_enabled_handle_flag.
Qed.

Lemma step_handle_flag s o : handle_flag s → handle_flag (step s o).
Proof.
  destruct o as [| |value|val]; cbn [step].
  - apply shortbus_digimax_register_handle_flag.
  - apply shortbus_digimax_unregister_handle_flag.
  - apply set_shortbus_digimax_enabled_handle_flag.
  - apply set_shortbus_digimax_base_handle_flag.
Qed.

Lemma consistent_handle_flag s : consistent s → handle_flag s.
Proof.
  intros [_ _ Hc _ _ _ _]. unfold handle_flag. rewrite Hc.
  destruct (shortbus_digimax_list_item s); split; intros; (done || lia).
Qed.

End Handle.

(** C10. The handle is non-NULL exactly when the mixer's chip flag is 1:
    each of the four operations keeps this true from any state where it
    holds, and it holds after every sequence of operations from the start of
    the program.  There the bus holds exactly the registration the handle
    stands for, none having been lost under a later claim, and in the log of
    bus calls every release names the window claimed at that point and every
    claim is made while nothing is claimed. *)
Theorem handle_iff_chip_enabled {M : Type} `{Mixer M} :
  (∀ (s : state M) (o : op), handle_flag s → handle_flag (step s o)) ∧
  (∀ (m : M) (ops : list op),
     let s := run ops (static_init m) in
     handle_flag s ∧
     bus_items (bus s) = held (shortbus_digimax_list_item s) ∧
     orderly (bus_log (bus s))).
Proof.
  split; [apply step_handle_flag|].
  intros m ops s. pose proof (reachable_consistent ops m) as Hs. fold s in Hs.
  split; [by apply consistent_handle_flag|].
  split; [apply (cons_items _ Hs) | apply (cons_orderly _ Hs)].
Qed.

Lemma handle_iff_chip_enabled_witness :
  handle_flag (static_init empty_map_mixer) ∧
  handle_flag
    (step (step (step (static_init empty_map_mixer) (SetEnabled 1)) HostRegister)
       (SetBase 0xde51)).
Proof.
  assert (handle_flag (static_init empty_map_mixer)) as H0.
  { split; intros Hx; [by destruct Hx | discriminate Hx]. }
  split; [exact H0|].
  apply (proj1 handle_iff_chip_enabled), (proj1 handle_iff_chip_enabled),
    (proj1 handle_iff_chip_enabled), H0.
Defined.

(** * Further properties of the base setter *)

Section BaseSetter.

Context {M : Type} `{Mixer M}.

Implicit Types (s : state M) (m : M).

Ltac eqb_cases :=
  repeat match goal with
         | H : (_ =? _) = true |- _ => apply Z.eqb_eq in H
         | H : (_ =? _) = false |- _ => apply Z.eqb_neq in H
         | H : (_ || _) = true |- _ => apply orb_true_iff in H
         | H : (_ || _) = false |- _ => apply orb_false_iff in H as [? ?]
         end.

(** The expansion setter leaves the host flag alone. *)
Lemma set_shortbus_digimax_enabled_host value s :
  shortbus_digimax_host_active (set_shortbus_digimax_enabled value s).2
  = shortbus_digimax_host_active s.
Proof.
  unfold set_shortbus_digimax_enabled. cbn [snd].
  destruct (c_true (shortbus_digimax_host_active s)); [|done].
  destruct (negb (c_true (chip_enabled s)) && c_true _); [done|].
  destruct (c_true (chip_enabled s) && negb _); [|done].
  by destruct (shortbus_digimax_list_item s).
Qed.

(** When the base setter answers 0. *)
Lemma set_shortbus_digimax_base_ok_iff s val :
  (set_shortbus_digimax_base val s).1 = 0
  ↔ val = shortbus_digimax_address s ∨ val = 0xde40 ∨ val = 0xde48.
Proof.
  unfold set_shortbus_digimax_base.
  destruct (val =? shortbus_digimax_address s) eqn:Hsame;
    [|destruct ((val =? 0xde40) || (val =? 0xde48)) eqn:Hlegal];
    cbn [fst]; eqb_cases.
  - split; [by left | done].
  - split; [|done].
    intros _. right. destruct Hlegal as [Hv | Hv]; apply Z.eqb_eq in Hv; tauto.
  - split; [done | lia].
Qed.

Lemma set_shortbus_digimax_base_ret s val :
  (set_shortbus_digimax_base val s).1 = 0 ∨ (set_shortbus_digimax_base val s).1 = -1.
Proof.
  unfold set_shortbus_digimax_base.
  destruct (val =? shortbus_digimax_address s); [by left|].
  destruct ((val =? 0xde40) || (val =? 0xde48)); [by left | by right].
Qed.

(** X1. The base setter answers 0 or -1, and 0 exactly for the value the base
    address has already and for the two values of the switch. *)
Theorem set_shortbus_digimax_base_result s val :
  ((set_shortbus_digimax_base val s).1 = 0 ∨ (set_shortbus_digimax_base val s).1 = -1) ∧
  ((set_shortbus_digimax_base val s).1 = 0
   ↔ val = shortbus_digimax_address s ∨ val = 0xde40 ∨ val = 0xde48).
Proof.
  split; [apply set_shortbus_digimax_base_ret | apply set_shortbus_digimax_base_ok_iff].
Qed.

(** The state the base setter validates in: the one given, or that one
    with the expansion switched off. *)
Lemma set_shortbus_digimax_base_parked s :
  let s1 := if c_true (chip_enabled s) then (set_shortbus_digimax_enabled 0 s).2 else s in
  digimax_device s1 = digimax_device s ∧
  shortbus_digimax_address s1 = shortbus_digimax_address s ∧
  shortbus_digimax_host_active s1 = shortbus_digimax_host_active s.
Proof.
  cbv zeta. destruct (c_true (chip_enabled s)); [|done].
  destruct (set_shortbus_digimax_enabled_frame 0 s) as [-> ->].
  by rewrite set_shortbus_digimax_enabled_host.
Qed.

Lemma set_shortbus_digimax_base_address s val :
  shortbus_digimax_address (set_shortbus_digimax_base val s).2
  = (if (set_shortbus_digimax_base val s).1 =? 0 then val else shortbus_digimax_address s).
Proof.
  unfold set_shortbus_digimax_base.
  destruct (val =? shortbus_digimax_address s) eqn:Hsame.
  { apply Z.eqb_eq in Hsame. by cbn. }
  destruct (set_shortbus_digimax_base_parked s) as (Hdev & Haddr & Hhost).
  cbv zeta in Hdev, Haddr, Hhost.
  destruct ((val =? 0xde40) || (val =? 0xde48)); cbv zeta; cbn [fst snd].
  - change (0 =? 0) with true. cbv iota.
    destruct (c_true (chip_enabled s)); [|done].
    by rewrite (proj2 (set_shortbus_digimax_enabled_frame 1 _)).
  - done.
Qed.

(** What the base setter keeps of the descriptor: the mask and the validity
    flag always, the window too when it answers -1. *)
Lemma set_shortbus_digimax_base_device s val :
  address_mask (digimax_device (set_shortbus_digimax_base val s).2)
  = address_mask (digimax_device s) ∧
  io_source_valid (digimax_device (set_shortbus_digimax_base val s).2)
  = io_source_valid (digimax_device s) ∧
  ((set_shortbus_digimax_base val s).1 = -1 →
   digimax_device (set_shortbus_digimax_base val s).2 = digimax_device s ∧
   shortbus_digimax_host_active (set_shortbus_digimax_base val s).2
   = shortbus_digimax_host_active s).
Proof.
  unfold set_shortbus_digimax_base.
  destruct (val =? shortbus_digimax_address s); [by cbn|].
  pose proof (set_shortbus_digimax_base_parked s) as Hp. cbv zeta in Hp.
  assert (0 ≠ -1) as Hx by lia.
  destruct (c_true (chip_enabled s)); destruct Hp as (Hdev & Haddr & Hhost);
    destruct ((val =? 0xde40) || (val =? 0xde48)); cbv zeta; cbn [fst snd].
  - rewrite (proj1 (set_shortbus_digimax_enabled_frame 1 _)).
    cbn [digimax_device set_address set_device address_mask io_source_valid].
    by rewrite Hdev.
  - by rewrite Hdev, Hhost.
  - done.
  - done.
Qed.

(** X2. What the base setter leaves in the base address: the value given when
    it answers 0, the former base address when it answers -1; and when it
    answers -1 the descriptor and the host flag are the former ones too. *)
Theorem set_shortbus_digimax_base_stored s val :
  let r := set_shortbus_digimax_base val s in
  shortbus_digimax_address r.2 = (if r.1 =? 0 then val else shortbus_digimax_address s) ∧
  (r.1 = -1 →
   digimax_device r.2 = digimax_device s ∧
   shortbus_digimax_host_active r.2 = shortbus_digimax_host_active s).
Proof.
  split; [apply set_shortbus_digimax_base_address|].
  apply set_shortbus_digimax_base_device.
Qed.

(** X5. A legal value other than the current base address, given while the chip
    flag is 0, is accepted with 0 and moves the base address to it and the
    window to the four addresses from it; nothing else changes: mask and
    validity flag, host flag, expansion flag, handle, chip flag, channel
    offset and data, the mixer, and the bus, which receives no call. *)
Theorem set_shortbus_digimax_base_disabled s val :
  chip_enabled s = 0 →
  val = 0xde40 ∨ val = 0xde48 →
  val ≠ shortbus_digimax_address s →
  let r := set_shortbus_digimax_base val s in
  r.1 = 0 ∧
  shortbus_digimax_address r.2 = val ∧
  start_address (digimax_device r.2) = val ∧
  end_address (digimax_device r.2) = val + 3 ∧
  address_mask (digimax_device r.2) = address_mask (digimax_device s) ∧
  io_source_valid (digimax_device r.2) = io_source_valid (digimax_device s) ∧
  shortbus_digimax_host_active r.2 = shortbus_digimax_host_active s ∧
  shortbus_digimax_expansion_active r.2 = shortbus_digimax_expansion_active s ∧
  shortbus_digimax_list_item r.2 = shortbus_digimax_list_item s ∧
  chip_enabled r.2 = chip_enabled s ∧
  digimax_sound_chip_offset r.2 = digimax_sound_chip_offset s ∧
  digimax_sound_data r.2 = digimax_sound_data s ∧
  bus r.2 = bus s ∧
  mixer r.2 = mixer s.
Proof.
  intros Hce Hlegal Hne. apply Z.eqb_neq in Hne.
  destruct s as [ha ea ad dev li ce off dat b mx]. simpl in Hce, Hne. subst ce.
  unfold set_shortbus_digimax_base, set_address, set_device. cbn. rewrite Hne.
  destruct Hlegal as [-> | ->]; cbn; repeat split.
Qed.

End BaseSetter.

(** * Repeating and deferring activation *)

Section Repeating.

Context {M : Type} `{Mixer M}.

Implicit Types (s : state M) (m : M).

Ltac branch_cases ha ea ce li :=
  unfold c_true; simpl;
  destruct (ha =? 0) eqn:Hha, (ea =? 0) eqn:Hea, (ce =? 0) eqn:Hce, li;
  simpl; rewrite ?Hha, ?Hea, ?Hce; simpl; done.

(** X11. Calling the expansion setter a second time with the same value changes
    nothing more: no second claim, no second release. *)
Theorem set_shortbus_digimax_enabled_twice s value :
  set_shortbus_digimax_enabled value (set_shortbus_digimax_enabled value s).2
  = set_shortbus_digimax_enabled value s.
Proof.
  destruct s as [ha ea ad dev li ce off dat b mx].
  unfold set_shortbus_digimax_enabled. destruct (c_true value).
  - branch_cases ha ea ce li.
  - branch_cases ha ea ce li.
Qed.

(** X13. A second host registration changes nothing more. *)
Theorem shortbus_digimax_register_twice s :
  shortbus_digimax_register (shortbus_digimax_register s) = shortbus_digimax_register s.
Proof.
  destruct s as [ha ea ad dev li ce off dat b mx].
  unfold shortbus_digimax_register. branch_cases ha ea ce li.
Qed.

(** X14. A second host unregistration changes nothing more. *)
Theorem shortbus_digimax_unregister_twice s :
  shortbus_digimax_unregister (shortbus_digimax_unregister s)
  = shortbus_digimax_unregister s.
Proof.
  destruct s as [ha ea ad dev li ce off dat b mx].
  unfold shortbus_digimax_unregister. branch_cases ha ea ce li.
Qed.

(** X15. The host registration while the expansion flag is 0 sets the host flag
    to 1 and does nothing else: no window is claimed, and expansion flag,
    base address, descriptor, handle, chip flag, channel offset and data,
    bus and mixer are those of the state before. *)
Theorem shortbus_digimax_register_expansion_off s :
  shortbus_digimax_expansion_active s = 0 →
  let s' := shortbus_digimax_register s in
  shortbus_digimax_host_active s' = 1 ∧
  shortbus_digimax_expansion_active s' = shortbus_digimax_expansion_active s ∧
  shortbus_digimax_address s' = shortbus_digimax_address s ∧
  digimax_device s' = digimax_device s ∧
  shortbus_digimax_list_item s' = shortbus_digimax_list_item s ∧
  chip_enabled s' = chip_enabled s ∧
  digimax_sound_chip_offset s' = digimax_sound_chip_offset s ∧
  digimax_sound_data s' = digimax_sound_data s ∧
  bus s' = bus s ∧
  mixer s' = mixer s.
Proof.
  intros He. destruct s as [ha ea ad dev li ce off dat b mx]. simpl in He. subst ea.
  unfold shortbus_digimax_register, set_host_active. cbn.
  rewrite andb_false_r. cbn. repeat split.
Qed.

End Repeating.

(** * Activation seen from a consistent state *)

Section Gated.

Context {M : Type} `{Mixer M}.

Implicit Types (s : state M) (m : M).

Lemma set_shortbus_digimax_enabled_host_on s value :
  consistent s → shortbus_digimax_host_active s ≠ 0 →
  let r := set_shortbus_digimax_enabled value s in
  r.1 = 0 ∧
  shortbus_digimax_expansion_active r.2 = (if c_true value then 1 else 0) ∧
  chip_enabled r.2 = (if c_true value then 1 else 0) ∧
  bus_log (bus r.2)
  = bus_log (bus s)
    ++ match shortbus_digimax_list_item s, c_true value with
       | None, true =>
           [Claim (bus_next (bus s)) (start_address (digimax_device s))
              (end_address (digimax_device s))]
       | Some h, false => [Release h]
       | _, _ => []
       end.
Proof.
  destruct s as [ha ea ad dev li ce off dat [bn bi bl] mx].
  intros [Hh He Hc Hg Hi Hcl Ho] Hon; simpl in *.
  assert (ha = 1) as -> by lia.
  unfold set_shortbus_digimax_enabled; simpl.
  destruct li as [h|]; subst ce; destruct (c_true value); simpl;
    by rewrite ?app_nil_r.
Qed.

Lemma enable_then_register_consistent s :
  consistent s → shortbus_digimax_host_active s = 0 →
  let s1 := (set_shortbus_digimax_enabled 1 s).2 in
  let s2 := shortbus_digimax_register s1 in
  bus s1 = bus s ∧
  bus_log (bus s2)
  = bus_log (bus s)
    ++ [Claim (bus_next (bus s)) (start_address (digimax_device s))
          (end_address (digimax_device s))] ∧
  shortbus_digimax_list_item s2 = Some (bus_next (bus s)) ∧
  chip_enabled s2 = 1 ∧
  shortbus_digimax_host_active s2 = 1 ∧
  shortbus_digimax_expansion_active s2 = 1.
Proof.
  destruct s as [ha ea ad dev li ce off dat [bn bi bl] mx].
  intros [Hh He Hc Hg Hi Hcl Ho] Hoff; simpl in *. subst ha.
  assert (ce = 0) as -> by lia.
  unfold set_shortbus_digimax_enabled, shortbus_digimax_register; simpl.
  done.
Qed.

Lemma set_shortbus_digimax_base_keeps_flags s val :
  consistent s → (set_shortbus_digimax_base val s).1 = 0 →
  let r := set_shortbus_digimax_base val s in
  shortbus_digimax_host_active r.2 = shortbus_digimax_host_active s ∧
  shortbus_digimax_expansion_active r.2 = shortbus_digimax_expansion_active s ∧
  chip_enabled r.2 = chip_enabled s ∧
  (is_Some (shortbus_digimax_list_item r.2) ↔ is_Some (shortbus_digimax_list_item s)).
Proof.
  intros Hs Hok.
  destruct (decide (val = shortbus_digimax_address s)) as [Heq|Hne].
  { cbv zeta. by rewrite set_shortbus_digimax_base_eq. }
  assert (val = 0xde40 ∨ val = 0xde48) as Hlegal.
  { apply set_shortbus_digimax_base_ok_iff in Hok. tauto. }
  clear Hok. cbv zeta.
  destruct (shortbus_digimax_list_item s) as [h|] eqn:Hli.
  - destruct (consistent_registered s h Hs Hli) as (Hce & Hh & He & _ & _).
    destruct s as [ha ea ad dev li ce off dat [bn bi bl] mx]. simpl in *. subst.
    apply Z.eqb_neq in Hne.
    unfold set_shortbus_digimax_base. simpl. rewrite Hne.
    destruct Hlegal as [-> | ->]; simpl; repeat split; eauto.
  - destruct (consistent_unregistered s Hs Hli) as (Hce & _ & _).
    destruct s as [ha ea ad dev li ce off dat [bn bi bl] mx]. simpl in *. subst.
    apply Z.eqb_neq in Hne.
    unfold set_shortbus_digimax_base. simpl. rewrite Hne.
    destruct Hlegal as [-> | ->]; simpl; done.
Qed.

End Gated.

(** * What operation sequences keep *)

Section Sequences.

Context {M : Type} `{Mixer M}.

Implicit Types (s : state M) (m : M).

Lemma step_address s o :
  shortbus_digimax_address (step s o) = shortbus_digimax_address s ∨
  shortbus_digimax_address (step s o) = 0xde40 ∨
  shortbus_digimax_address (step s o) = 0xde48.
Proof.
  destruct o as [| |value|val]; cbn [step].
  - left. apply shortbus_digimax_register_frame.
  - left. apply shortbus_digimax_unregister_frame.
  - left. apply set_shortbus_digimax_enabled_frame.
  - rewrite set_shortbus_digimax_base_address.
    destruct ((set_shortbus_digimax_base val s).1 =? 0) eqn:Hret; [|by left].
    apply Z.eqb_eq, set_shortbus_digimax_base_ok_iff in Hret. tauto.
Qed.

Lemma step_mask s o :
  address_mask (digimax_device (step s o)) = address_mask (digimax_device s) ∧
  io_source_valid (digimax_device (step s o)) = io_source_valid (digimax_device s).
Proof.
  destruct o as [| |value|val]; cbn [step].
  - by rewrite (proj1 (shortbus_digimax_register_frame s)).
  - by rewrite (proj1 (shortbus_digimax_unregister_frame s)).
  - by rewrite (proj1 (set_shortbus_digimax_enabled_frame value s)).
  - destruct (set_shortbus_digimax_base_device s val) as (Hm & Hv & _). done.
Qed.

(** X8. Whatever the operations and their arguments, the base address is only
    ever changed to 0xde40 or to 0xde48. *)
Theorem base_address_only_legal s (ops : list op) :
  shortbus_digimax_address (run ops s) = shortbus_digimax_address s ∨
  shortbus_digimax_address (run ops s) = 0xde40 ∨
  shortbus_digimax_address (run ops s) = 0xde48.
Proof.
  revert s. induction ops as [|o ops IH]; intros s; [by left|].
  change (run (o :: ops) s) with (run ops (step s o)).
  destruct (IH (step s o)) as [-> | Hlegal]; [|by right].
  apply step_address.
Qed.

(** X10. After every sequence of operations from the start of the program the
    descriptor still has the mask 0x03 and "read is always valid", so an
    address taken under the mask is one of the four channel slots. *)
Theorem descriptor_mask_kept m (ops : list op) (a : Z) :
  let d := digimax_device (run ops (static_init m)) in
  address_mask d = 0x03 ∧ io_source_valid d = 1 ∧ 0 ≤ Z.land a (address_mask d) ≤ 3.
Proof.
  cbv zeta.
  assert (∀ s, address_mask (digimax_device (run ops s)) = address_mask (digimax_device s) ∧
               io_source_valid (digimax_device (run ops s))
               = io_source_valid (digimax_device s)) as Hrun.
  { induction ops as [|o ops IH]; intros s; [done|].
    change (run (o :: ops) s) with (run ops (step s o)).
    destruct (IH (step s o)) as [-> ->]. apply step_mask. }
  destruct (Hrun (static_init m)) as [-> ->]. cbn.
  split; [done|]. split; [done|].
  change 3 with (Z.ones 2) at 1 2. rewrite Z.land_ones by lia.
  pose proof (Z.mod_pos_bound a (2 ^ 2)). lia.
Qed.

(** X7. Moving the window to a legal base address and back to the legal one it
    had gives back the descriptor and the base address, and leaves the
    activation flags and the registration status as they were. *)
Theorem relocate_and_back m (ops : list op) (val : Z) :
  let s := run ops (static_init m) in
  window_ok s →
  shortbus_digimax_address s = 0xde40 ∨ shortbus_digimax_address s = 0xde48 →
  val = 0xde40 ∨ val = 0xde48 →
  let s' := (set_shortbus_digimax_base val s).2 in
  let s'' := (set_shortbus_digimax_base (shortbus_digimax_address s) s').2 in
  digimax_device s'' = digimax_device s ∧
  shortbus_digimax_address s'' = shortbus_digimax_address s ∧
  shortbus_digimax_host_active s'' = shortbus_digimax_host_active s ∧
  shortbus_digimax_expansion_active s'' = shortbus_digimax_expansion_active s ∧
  chip_enabled s'' = chip_enabled s ∧
  (is_Some (shortbus_digimax_list_item s'') ↔ is_Some (shortbus_digimax_list_item s)).
Proof.
  intros s Hw Hbase Hval s' s''.
  pose proof (reachable_consistent ops m) as Hs. fold s in Hs.
  assert ((set_shortbus_digimax_base val s).1 = 0) as Hok1.
  { apply set_shortbus_digimax_base_ok_iff. tauto. }
  assert ((set_shortbus_digimax_base (shortbus_digimax_address s) s').1 = 0) as Hok2.
  { apply set_shortbus_digimax_base_ok_iff. tauto. }
  assert (consistent s') as Hs' by apply (step_consistent s (SetBase val) Hs).
  destruct (set_shortbus_digimax_base_keeps_flags s val Hs Hok1) as (Hh1 & He1 & Hc1 & Hl1).
  destruct (set_shortbus_digimax_base_keeps_flags s' _ Hs' Hok2) as (Hh2 & He2 & Hc2 & Hl2).
  fold s' in Hh1, He1, Hc1, Hl1. fold s'' in Hh2, He2, Hc2, Hl2.
  assert (shortbus_digimax_address s'' = shortbus_digimax_address s) as Haddr.
  { unfold s''. rewrite set_shortbus_digimax_base_address, Hok2. done. }
  assert (window_ok s'') as [Hlo Hhi].
  { by apply set_shortbus_digimax_base_window_ok, set_shortbus_digimax_base_window_ok. }
  destruct (set_shortbus_digimax_base_device s val) as (Hm1 & Hv1 & _).
  destruct (set_shortbus_digimax_base_device s' (shortbus_digimax_address s))
    as (Hm2 & Hv2 & _).
  fold s' in Hm1, Hv1, Hm2, Hv2. fold s'' in Hm2, Hv2.
  destruct Hw as [Hlo0 Hhi0].
  split.
  { rewrite Haddr in Hlo, Hhi.
    destruct (digimax_device s''), (digimax_device s); simpl in *. congruence. }
  split; [done|]. split; [congruence|]. split; [congruence|]. split; [congruence|].
  by rewrite Hl2.
Qed.

End Sequences.

(** * Activation on reachable states *)

(** X12. With the host active, the expansion setter acts on the bus at once:
    it claims the descriptor's window when the value is non-zero and nothing
    is registered, releases the handle when the value is 0 and the device is
    registered, and makes no bus call otherwise; the expansion flag and the
    chip flag both end as the value's truth. *)
Theorem expansion_setter_host_active {M : Type} `{Mixer M}
    (m : M) (ops : list op) (value : Z) :
  let s := run ops (static_init m) in
  shortbus_digimax_host_active s ≠ 0 →
  let r := set_shortbus_digimax_enabled value s in
  r.1 = 0 ∧
  shortbus_digimax_expansion_active r.2 = (if c_true value then 1 else 0) ∧
  chip_enabled r.2 = (if c_true value then 1 else 0) ∧
  bus_log (bus r.2)
  = bus_log (bus s)
    ++ match shortbus_digimax_list_item s, c_true value with
       | None, true =>
           [Claim (bus_next (bus s)) (start_address (digimax_device s))
              (end_address (digimax_device s))]
       | Some h, false => [Release h]
       | _, _ => []
       end.
Proof.
  intros s Hon. apply set_shortbus_digimax_enabled_host_on; [|done].
  apply reachable_consistent.
Qed.

Lemma expansion_setter_host_active_witness :
  shortbus_digimax_host_active (run [HostRegister] (static_init empty_map_mixer)) ≠ 0 ∧
  chip_enabled
    (set_shortbus_digimax_enabled 5 (run [HostRegister] (static_init empty_map_mixer))).2
  = (if c_true 5 then 1 else 0).
Proof.
  assert (shortbus_digimax_host_active (run [HostRegister] (static_init empty_map_mixer))
          ≠ 0) as Hon.
  { intros Heq. vm_compute in Heq. discriminate Heq. }
  split; [exact Hon|].
  exact (proj1 (proj2 (proj2
           (expansion_setter_host_active empty_map_mixer [HostRegister] 5 Hon)))).
Defined.

(** X16. Enabling the expansion while the host is inactive makes no bus call; the
    host registration that follows claims the descriptor's window, once, and
    sets handle, chip flag and both activation flags. *)
Theorem enable_then_host_register {M : Type} `{Mixer M} (m : M) (ops : list op) :
  let s := run ops (static_init m) in
  shortbus_digimax_host_active s = 0 →
  let s1 := (set_shortbus_digimax_enabled 1 s).2 in
  let s2 := shortbus_digimax_register s1 in
  bus s1 = bus s ∧
  bus_log (bus s2)
  = bus_log (bus s)
    ++ [Claim (bus_next (bus s)) (start_address (digimax_device s))
          (end_address (digimax_device s))] ∧
  shortbus_digimax_list_item s2 = Some (bus_next (bus s)) ∧
  chip_enabled s2 = 1 ∧
  shortbus_digimax_host_active s2 = 1 ∧
  shortbus_digimax_expansion_active s2 = 1.
Proof.
  intros s Hoff. apply enable_then_register_consistent; [|done].
  apply reachable_consistent.
Qed.

Lemma enable_then_host_register_witness :
  shortbus_digimax_host_active
    (run [HostRegister; SetEnabled 1; HostUnregister; SetEnabled 0]
       (static_init empty_map_mixer)) = 0 ∧
  chip_enabled
    (shortbus_digimax_register
       (set_shortbus_digimax_enabled 1
          (run [HostRegister; SetEnabled 1; HostUnregister; SetEnabled 0]
             (static_init empty_map_mixer))).2) = 1.
Proof.
  assert (shortbus_digimax_host_active
            (run [HostRegister; SetEnabled 1; HostUnregister; SetEnabled 0]
               (static_init empty_map_mixer)) = 0) as Hoff.
  { vm_compute. reflexivity. }
  split; [exact Hoff|].
  exact (proj1 (proj2 (proj2 (proj2
           (enable_then_host_register empty_map_mixer
              [HostRegister; SetEnabled 1; HostUnregister; SetEnabled 0] Hoff))))).
Defined.

(** X6. A base setter call that answers 0 leaves the host flag, the expansion
    flag, the chip flag and the registration status of a reachable state as
    they were. *)
Theorem base_change_keeps_activation {M : Type} `{Mixer M}
    (m : M) (ops : list op) (val : Z) :
  let s := run ops (static_init m) in
  (set_shortbus_digimax_base val s).1 = 0 →
  let r := set_shortbus_digimax_base val s in
  shortbus_digimax_host_active r.2 = shortbus_digimax_host_active s ∧
  shortbus_digimax_expansion_active r.2 = shortbus_digimax_expansion_active s ∧
  chip_enabled r.2 = chip_enabled s ∧
  (is_Some (shortbus_digimax_list_item r.2) ↔ is_Some (shortbus_digimax_list_item s)).
Proof.
  intros s Hok. apply set_shortbus_digimax_base_keeps_flags; [|done].
  apply reachable_consistent.
Qed.

Lemma base_change_keeps_activation_witness :
  (set_shortbus_digimax_base 0xde48
     (run [SetEnabled 1; HostRegister] (static_init empty_map_mixer))).1 = 0 ∧
  chip_enabled
    (set_shortbus_digimax_base 0xde48
       (run [SetEnabled 1; HostRegister] (static_init empty_map_mixer))).2
  = chip_enabled (run [SetEnabled 1; HostRegister] (static_init empty_map_mixer)).
Proof.
  assert ((set_shortbus_digimax_base 0xde48
             (run [SetEnabled 1; HostRegister] (static_init empty_map_mixer))).1 = 0)
    as Hok.
  { vm_compute. reflexivity. }
  split; [exact Hok|].
  exact (proj1 (proj2 (proj2
           (base_change_keeps_activation empty_map_mixer
              [SetEnabled 1; HostRegister] 0xde48 Hok)))).
Defined.

Lemma relocate_and_back_witness :
  window_ok (run [SetBase 0xde48; SetEnabled 1; HostRegister] (static_init empty_map_mixer)) ∧
  digimax_device
    (set_shortbus_digimax_base
       (shortbus_digimax_address
          (run [SetBase 0xde48; SetEnabled 1; HostRegister] (static_init empty_map_mixer)))
       (set_shortbus_digimax_base 0xde40
          (run [SetBase 0xde48; SetEnabled 1; HostRegister]
             (static_init empty_map_mixer))).2).2
  = digimax_device
      (run [SetBase 0xde48; SetEnabled 1; HostRegister] (static_init empty_map_mixer)).
Proof.
  assert (window_ok
            (run [SetBase 0xde48; SetEnabled 1; HostRegister]
               (static_init empty_map_mixer))) as Hw.
  { split; vm_compute; reflexivity. }
  assert (shortbus_digimax_address
            (run [SetBase 0xde48; SetEnabled 1; HostRegister]
               (static_init empty_map_mixer)) = 0xde40 ∨
          shortbus_digimax_address
            (run [SetBase 0xde48; SetEnabled 1; HostRegister]
               (static_init empty_map_mixer)) = 0xde48) as Hbase.
  { right. vm_compute. reflexivity. }
  split; [exact Hw|].
  exact (proj1 (relocate_and_back empty_map_mixer
                  [SetBase 0xde48; SetEnabled 1; HostRegister] 0xde40
                  Hw Hbase (or_introl eq_refl))).
Defined.

(** * Witnesses for the setters' edge cases *)

Lemma set_shortbus_digimax_base_invalid_disabled_witness :
  set_shortbus_digimax_base 0xde44 (static_init empty_map_mixer)
  = (-1, static_init empty_map_mixer).
Proof.
  apply (set_shortbus_digimax_base_invalid_disabled (static_init empty_map_mixer) 0xde44);
    [lia | lia | by cbn | reflexivity].
Defined.

Lemma set_shortbus_digimax_base_invalid_enabled_witness :
  shortbus_digimax_expansion_active
    (set_shortbus_digimax_base (-1)
       (run [SetEnabled 1; HostRegister] (static_init empty_map_mixer))).2 = 0.
Proof.
  assert (chip_enabled (run [SetEnabled 1; HostRegister] (static_init empty_map_mixer)) ≠ 0)
    as Hce.
  { intros Heq. vm_compute in Heq. discriminate Heq. }
  assert (shortbus_digimax_host_active
            (run [SetEnabled 1; HostRegister] (static_init empty_map_mixer)) ≠ 0) as Hh.
  { intros Heq. vm_compute in Heq. discriminate Heq. }
  assert (-1 ≠ shortbus_digimax_address
                 (run [SetEnabled 1; HostRegister] (static_init empty_map_mixer))) as Hne.
  { intros Heq. vm_compute in Heq. discriminate Heq. }
  assert (-1 ≠ 0xde40) as H40 by lia.
  assert (-1 ≠ 0xde48) as H48 by lia.
  exact (proj1 (proj2 (proj2 (proj2
           (set_shortbus_digimax_base_invalid_enabled
              (run [SetEnabled 1; HostRegister] (static_init empty_map_mixer)) (-1)
              H40 H48 Hne Hce Hh))))).
Defined.

Lemma set_shortbus_digimax_base_disabled_witness :
  chip_enabled (static_init empty_map_mixer) = 0 ∧
  0xde48 ≠ shortbus_digimax_address (static_init empty_map_mixer) ∧
  shortbus_digimax_address
    (set_shortbus_digimax_base 0xde48 (static_init empty_map_mixer)).2 = 0xde48 ∧
  end_address
    (digimax_device (set_shortbus_digimax_base 0xde48 (static_init empty_map_mixer)).2)
  = 0xde48 + 3 ∧
  bus (set_shortbus_digimax_base 0xde48 (static_init empty_map_mixer)).2
  = bus (static_init empty_map_mixer).
Proof.
  assert (chip_enabled (static_init empty_map_mixer) = 0) as Hce by reflexivity.
  assert (0xde48 ≠ shortbus_digimax_address (static_init empty_map_mixer)) as Hne.
  { intros Heq. vm_compute in Heq. discriminate Heq. }
  pose proof (set_shortbus_digimax_base_disabled (static_init empty_map_mixer) 0xde48
                Hce (or_intror eq_refl) Hne) as Hw.
  cbv zeta in Hw.
  destruct Hw as (_ & Ha & _ & Hhi & _ & _ & _ & _ & _ & _ & _ & _ & Hb & _).
  split; [exact Hce|]. split; [exact Hne|]. split; [exact Ha|].
  split; [exact Hhi | exact Hb].
Defined.

Lemma shortbus_digimax_register_expansion_off_witness :
  shortbus_digimax_expansion_active (static_init empty_map_mixer) = 0 ∧
  shortbus_digimax_host_active
    (shortbus_digimax_register (static_init empty_map_mixer)) = 1 ∧
  bus (shortbus_digimax_register (static_init empty_map_mixer))
  = bus (static_init empty_map_mixer).
Proof.
  assert (shortbus_digimax_expansion_active (static_init empty_map_mixer) = 0) as He
    by reflexivity.
  pose proof (shortbus_digimax_register_expansion_off (static_init empty_map_mixer) He)
    as Hw.
  cbv zeta in Hw. destruct Hw as (Hh & _ & _ & _ & _ & _ & _ & _ & Hb & _).
  split; [exact He|]. split; [exact Hh | exact Hb].
Defined.

(** * Channels do not overlap *)

#[export] Instance map_mixer_SeparateMixer : SeparateMixer map_mixer.
Proof.
  split. intros m a a' v c Hne. unfold sound_read, sound_store; simpl.
  rewrite lookup_insert_ne; [done|]. intros Heq. by injection Heq.
Qed.

Lemma land_channel (off a : Z) :
  Z.land off 3 = 0 → 0 ≤ a ≤ 3 → Z.land off a = 0.
Proof.
  intros Hoff Ha.
  assert (a = Z.land 3 a) as ->.
  { assert (a = 0 ∨ a = 1 ∨ a = 2 ∨ a = 3) as [-> | [-> | [-> | ->]]] by lia; done. }
  by rewrite Z.land_assoc, Hoff.
Qed.

Lemma lor_channel (off a : Z) :
  Z.land off 3 = 0 → 0 ≤ a ≤ 3 → Z.lor off a = off + a.
Proof.
  intros Hoff Ha. pose proof (Z.add_lor_land off a) as Hadd.
  rewrite (land_channel off a) in Hadd by done. lia.
Qed.

(** X17. With a 16 bit channel offset whose two low bits are clear, the four
    local channels have four different global addresses: on a mixer that
    keeps its cells apart, a device write to channel [a] leaves what the
    device reads from another channel [b] as it was. *)
Theorem sound_store_other_channel {M : Type} `{SeparateMixer M}
    (s : state M) (a b v : Z) :
  0 ≤ digimax_sound_chip_offset s < 65536 →
  Z.land (digimax_sound_chip_offset s) 3 = 0 →
  0 ≤ a ≤ 3 → 0 ≤ b ≤ 3 → a ≠ b →
  shortbus_digimax_sound_read b (shortbus_digimax_sound_store a v s)
  = shortbus_digimax_sound_read b s.
Proof.
  intros Hoff Hlow Ha Hb Hne.
  unfold shortbus_digimax_sound_read, shortbus_digimax_sound_store. simpl.
  rewrite !to_WORD_channel by done.
  apply sound_read_store_other.
  rewrite !lor_channel by done. lia.
Qed.

Lemma sound_store_other_channel_witness :
  shortbus_digimax_sound_read 1
    (shortbus_digimax_sound_store 2 99
       (shortbus_digimax_sound_store 1 42 (static_init empty_map_mixer)))
  = shortbus_digimax_sound_read 1
      (shortbus_digimax_sound_store 1 42 (static_init empty_map_mixer)).
Proof.
  apply (sound_store_other_channel
           (shortbus_digimax_sound_store 1 42 (static_init empty_map_mixer)) 2 1 99);
    [by cbn | reflexivity | lia | lia | lia].
Defined.

(** * The window on reachable states *)

Section StaticOrMoved.

Context {M : Type} `{Mixer M}.

Implicit Types (s : state M) (m : M).

Lemma static_or_moved_frame s s' :
  digimax_device s' = digimax_device s ∧
  shortbus_digimax_address s' = shortbus_digimax_address s →
  static_or_moved s → static_or_moved s'.
Proof. unfold static_or_moved, window_ok. by intros [-> ->]. Qed.

Lemma step_static_or_moved s o : static_or_moved s → static_or_moved (step s o).
Proof.
  intros Hs. destruct o as [| |value|val]; cbn [step].
  - eapply static_or_moved_frame; [apply shortbus_digimax_register_frame | done].
  - eapply static_or_moved_frame; [apply shortbus_digimax_unregister_frame | done].
  - eapply static_or_moved_frame; [apply set_shortbus_digimax_enabled_frame | done].
  - destruct (decide (val = shortbus_digimax_address s)) as [Heq|Hne].
    { by rewrite set_shortbus_digimax_base_eq. }
    pose proof (set_shortbus_digimax_base_address s val) as Haddr.
    destruct (set_shortbus_digimax_base_ret s val) as [Hok|Hko].
    + right. rewrite Hok in Haddr. cbn in Haddr. rewrite Haddr. split.
      * apply set_shortbus_digimax_base_ok_iff in Hok. tauto.
      * by apply set_shortbus_digimax_base_window.
    + rewrite Hko in Haddr. cbn in Haddr.
      destruct (set_shortbus_digimax_base_device s val) as (_ & _ & Hdev).
      destruct (Hdev Hko) as [Hd _].
      eapply static_or_moved_frame; [|done]. by split.
Qed.

Lemma reachable_static_or_moved m (ops : list op) :
  static_or_moved (run ops (static_init m)).
Proof.
  assert (∀ s, static_or_moved s → static_or_moved (run ops s)) as Hrun.
  { induction ops as [|o ops IH]; intros s Hs; [done|].
    apply IH. by apply step_static_or_moved. }
  apply Hrun. by left.
Qed.

End StaticOrMoved.

(** X9. After every sequence of operations from the start of the program, either
    the base address is still the 0 it started with and the descriptor still
    spans 0xde40..0xde47, or the base address is 0xde40 or 0xde48 and the
    window is the four addresses from it. *)
Theorem window_static_or_moved {M : Type} `{Mixer M} (m : M) (ops : list op) :
  let s := run ops (static_init m) in
  (shortbus_digimax_address s = 0 ∧
   start_address (digimax_device s) = 0xde40 ∧
   end_address (digimax_device s) = 0xde47) ∨
  ((shortbus_digimax_address s = 0xde40 ∨ shortbus_digimax_address s = 0xde48) ∧
   start_address (digimax_device s) = shortbus_digimax_address s ∧
   end_address (digimax_device s) = shortbus_digimax_address s + 3).
Proof. apply reachable_static_or_moved. Qed.

(** X18. Setting both resources to their factory values, in any state the
    operations can reach, leaves the device off the bus with the expansion
    flag and the chip flag 0, the base address 0xde40 and the window
    0xde40..0xde43; the host flag is as before. *)
Theorem resources_defaults_reset {M : Type} `{Mixer M} (m : M) (ops : list op) :
  let s := run ops (static_init m) in
  let s' := resources_defaults s in
  shortbus_digimax_expansion_active s' = 0 ∧
  chip_enabled s' = 0 ∧
  shortbus_digimax_list_item s' = None ∧
  bus_items (bus s') = [] ∧
  shortbus_digimax_host_active s' = shortbus_digimax_host_active s ∧
  shortbus_digimax_address s' = 0xde40 ∧
  start_address (digimax_device s') = 0xde40 ∧
  end_address (digimax_device s') = 0xde43.
Proof.
  intros s s'. subst s'. unfold resources_defaults.
  set (s1 := (set_shortbus_digimax_enabled 0 s).2).
  set (s' := (set_shortbus_digimax_base 0xde40 s1).2).
  assert (s1 = run (ops ++ [SetEnabled 0]) (static_init m)) as Hs1.
  { by rewrite run_app. }
  assert (s' = run (ops ++ [SetEnabled 0; SetBase 0xde40]) (static_init m)) as Hs'.
  { by rewrite run_app. }
  pose proof (reachable_consistent (ops ++ [SetEnabled 0]) m) as Hc1.
  rewrite <- Hs1 in Hc1.
  pose proof (reachable_consistent (ops ++ [SetEnabled 0; SetBase 0xde40]) m) as Hc'.
  pose proof (reachable_static_or_moved m (ops ++ [SetEnabled 0; SetBase 0xde40])) as Hw'.
  rewrite <- Hs' in Hc', Hw'.
  assert ((set_shortbus_digimax_base 0xde40 s1).1 = 0) as Hok.
  { apply set_shortbus_digimax_base_ok_iff. tauto. }
  destruct (set_shortbus_digimax_base_keeps_flags s1 0xde40 Hc1 Hok) as (Hh & He & Hce & _).
  fold s' in Hh, He, Hce.
  assert (shortbus_digimax_address s' = 0xde40) as Haddr.
  { unfold s'. by rewrite set_shortbus_digimax_base_address, Hok. }
  assert (shortbus_digimax_expansion_active s' = 0) as Hexp.
  { rewrite He. done. }
  assert (chip_enabled s' = 0) as Hchip.
  { rewrite (cons_gate _ Hc'), Hexp. lia. }
  assert (shortbus_digimax_list_item s' = None) as Hli.
  { pose proof (cons_chip _ Hc') as Hx. rewrite Hchip in Hx.
    destruct (shortbus_digimax_list_item s'); [lia | done]. }
  split; [done|]. split; [done|]. split; [done|].
  split; [by rewrite (cons_items _ Hc'), Hli|].
  split; [rewrite Hh; apply set_shortbus_digimax_enabled_host|].
  split; [done|].
  destruct Hw' as [(Hz & _) | (_ & Hlo & Hhi)]; [lia|].
  rewrite Hlo, Hhi, Haddr. done.
Qed.
